(** * tenacitas.lib.test: the test runner of [alg/tester.h]

    A shallow embedding of [tenacitas::lib::tester::alg::test] (constructor,
    [run], [exec], [print_mini_howto]) and of the test classes of
    [tst/main.cpp], followed by the properties of the runner.

    Conventions of the embedding:
    - the two output streams are recorded in one trace of events, each
      [<<] being one [Write]; [endl] is the write of a line feed;
    - entering code of a test class (default construction, the static
      [desc], [operator()]) is recorded by an [Enter] event, and the
      destruction of the test object by a [Destroy] event; each stands
      for whatever that code does itself, which returns or throws;
    - a C++ function that may throw returns a [res]; a thrown value is
      either derived from [std::exception] (it has a [what] message) or it
      is not, the handlers of the runner being [catch (std::exception &)];
    - a [noexcept] function that lets an exception out calls
      [std::terminate], and so does a destructor that throws while an
      exception is being propagated: the outcome is [Terminated];
    - the options parser ([tenacitas.lib.program/alg/options.h]) belongs to
      another library: the runner is parameterised by it. *)

From Stdlib Require Import ZArith Ascii String.
From stdpp Require Import gmap strings list.

Open Scope string_scope.
Open Scope list_scope.

(** ** Characters that cannot be written inside a string literal *)

Definition LF : string := String "010"%char EmptyString.
Definition TAB : string := String "009"%char EmptyString.
Definition DQUOTE : string := String "034"%char EmptyString.

(** ** Exceptions, results and the trace of effects *)

(** What a [throw] carries, as far as [catch (std::exception &)] can tell. *)
Inductive thrown : Type :=
| std_exception (what : string)
| not_std_exception.

Inductive res (A : Type) : Type :=
| Ret (a : A)
| Throw (t : thrown).
Arguments Ret {A} a.
Arguments Throw {A} t.

Inductive stream : Type := cout | cerr.

(** The three entry points of a test class. *)
Inductive entry : Type := default_ctor | static_desc | call_operator.

Inductive event : Type :=
| Write (s : stream) (text : string)
| Enter (e : entry)
| Destroy.

Definition same_stream (a b : stream) : bool :=
  match a, b with
  | cout, cout | cerr, cerr => true
  | _, _ => false
  end.

Definition same_entry (a b : entry) : bool :=
  match a, b with
  | default_ctor, default_ctor
  | static_desc, static_desc
  | call_operator, call_operator => true
  | _, _ => false
  end.

(** The text that reached one stream, in order. *)
Fixpoint written (s : stream) (tr : list event) : string :=
  match tr with
  | [] => ""
  | Write s' text :: tr' =>
      if same_stream s' s then text +:+ written s tr' else written s tr'
  | Enter _ :: tr' | Destroy :: tr' => written s tr'
  end.

(** How many times one entry point of a test class was entered. *)
Fixpoint entered (e : entry) (tr : list event) : nat :=
  match tr with
  | [] => 0
  | Enter e' :: tr' =>
      if same_entry e' e then S (entered e tr') else entered e tr'
  | Write _ _ :: tr' | Destroy :: tr' => entered e tr'
  end.

(** How a [noexcept] function ends. *)
Inductive outcome (A : Type) : Type :=
| Returned (a : A)
| Terminated.
Arguments Returned {A} a.
Arguments Terminated {A}.

(** How a piece of a function body ends: with a value, with an
    exception in flight, or in [std::terminate]. *)
Inductive flow (A : Type) : Type :=
| Normal (a : A)
| Raise (e : thrown)
| Halt.
Arguments Normal {A} a.
Arguments Raise {A} e.
Arguments Halt {A}.

(** ** A monad for member functions: state, trace and exceptions

    The object is threaded through, so that what was assigned before a
    [throw] stays assigned. *)
Section Monad.
Context {S : Type}.

Definition M (A : Type) : Type := S -> S * list event * flow A.

Definition ret {A} (a : A) : M A := fun s => (s, [], Normal a).

Definition bind {A B} (m : M A) (f : A -> M B) : M B :=
  fun s =>
    match m s with
    | (s1, t1, Normal a) => let '(s2, t2, r) := f a s1 in (s2, t1 ++ t2, r)
    | (s1, t1, Raise e) => (s1, t1, Raise e)
    | (s1, t1, Halt) => (s1, t1, Halt)
    end.

Definition gets {A} (f : S -> A) : M A := fun s => (s, [], Normal (f s)).
Definition modify (f : S -> S) : M unit := fun s => (f s, [], Normal tt).
Definition emit (e : event) : M unit := fun s => (s, [e], Normal tt).

(** The result of code outside the runner, taken into the body. *)
Definition lift {A} (r : res A) : M A :=
  fun s =>
    match r with
    | Ret a => (s, [], Normal a)
    | Throw e => (s, [], Raise e)
    end.

(** [try { m } catch (std::exception &_ex) { h _ex.what() }] *)
Definition try_catch {A} (m : M A) (h : string -> M A) : M A :=
  fun s =>
    match m s with
    | (s1, t1, Raise (std_exception what)) =>
        let '(s2, t2, r) := h what s1 in (s2, t1 ++ t2, r)
    | other => other
    end.

(** The block in which an automatic object lives, from the end of its
    construction on.  Leaving the block destroys the object.  At the
    end of [body] an exception of the destructor is in flight like any
    other.  When a [std::exception] leaves [body], the object is
    destroyed on the way to the handler, and a destructor that throws
    then calls [std::terminate].  For what is not a [std::exception]
    the runner has no handler and the program ends in [noexcept]:
    whether the object is destroyed before that is left to the
    implementation, and the trace stops at the throw. *)
Definition with_object {A} (destructor : M unit) (body : M A) : M A :=
  fun s =>
    match body s with
    | (s1, t1, Normal a) =>
        match destructor s1 with
        | (s2, t2, Normal _) => (s2, t1 ++ t2, Normal a)
        | (s2, t2, Raise e) => (s2, t1 ++ t2, Raise e)
        | (s2, t2, Halt) => (s2, t1 ++ t2, Halt)
        end
    | (s1, t1, Raise (std_exception what)) =>
        match destructor s1 with
        | (s2, t2, Normal _) => (s2, t1 ++ t2, Raise (std_exception what))
        | (s2, t2, _) => (s2, t1 ++ t2, Halt)
        end
    | (s1, t1, Raise not_std_exception) => (s1, t1, Raise not_std_exception)
    | (s1, t1, Halt) => (s1, t1, Halt)
    end.

(** A function declared [noexcept]. *)
Definition noexcept {A} (m : M A) : S -> S * list event * outcome A :=
  fun s =>
    match m s with
    | (s1, t1, Normal a) => (s1, t1, Returned a)
    | (s1, t1, _) => (s1, t1, Terminated)
    end.
End Monad.
Arguments M : clear implicits.

Declare Scope cpp_scope.
Delimit Scope cpp_scope with cpp.
Notation "x <- m ;; k" := (bind m (fun x => k))
  (at level 100, m at next level, right associativity) : cpp_scope.
Notation "m ;; k" := (bind m (fun _ => k))
  (at level 100, right associativity) : cpp_scope.
Open Scope cpp_scope.

(** [os << text] *)
Definition put {S} (os : stream) (text : string) : M S unit :=
  emit (Write os text).
(** [os << std::endl] *)
Definition endl {S} (os : stream) : M S unit := put os LF.
(** Entering code of a test class, which returns or throws. *)
Definition enter {S A} (e : entry) (r : res A) : M S A :=
  emit (Enter e);; lift r.

(** ** The collaborator: [program::alg::options]

    Only what [tester.h] calls.  [parse] is a mutating member function:
    it takes the object and gives it back, also when it throws. [name]
    and [value] of the library are strings. *)
Class Options : Type := {
  options : Type;
  (** the default-constructed object *)
  options_init : options;
  (** [o.parse(argc, argv, mandatory)] *)
  parse : options -> Z -> list string -> list string -> options * res unit;
  (** [o.get_bool_param(name)], as the condition of an [if] *)
  get_bool_param : options -> string -> res bool;
  (** [o.get_set_param(name)] *)
  get_set_param : options -> string -> res (option (list string));
}.

(** ** The runner *)
Section Runner.
Context `{Options}.

(** A class that can be handed to [run]:
    [bool operator()(const program::alg::options &)] and
    [static std::string desc()], a default constructor, and the
    destructor that ends the life of the object [exec] builds.
    [destroy] is a [Throw] when an exception leaves the destructor,
    which takes a destructor declared [noexcept(false)]. *)
Record t_test_class : Type := {
  construct : res unit;
  desc : res string;
  call : options -> res bool;
  destroy : res unit;
}.

(** The data members of [struct test]. *)
Record test : Type := mk_test {
  m_pgm_name : string;
  m_execute_tests : bool;
  m_print_desc : bool;
  m_argc : Z;
  m_argv : list string;
  m_tests_to_exec : gset string;
  m_options : options;
}.

Definition set_execute_tests (b : bool) (t : test) : test :=
  mk_test (m_pgm_name t) b (m_print_desc t) (m_argc t) (m_argv t)
          (m_tests_to_exec t) (m_options t).
Definition set_print_desc (b : bool) (t : test) : test :=
  mk_test (m_pgm_name t) (m_execute_tests t) b (m_argc t) (m_argv t)
          (m_tests_to_exec t) (m_options t).
Definition set_tests_to_exec (s : gset string) (t : test) : test :=
  mk_test (m_pgm_name t) (m_execute_tests t) (m_print_desc t) (m_argc t)
          (m_argv t) s (m_options t).
Definition set_options (o : options) (t : test) : test :=
  mk_test (m_pgm_name t) (m_execute_tests t) (m_print_desc t) (m_argc t)
          (m_argv t) (m_tests_to_exec t) o.

(** [print_mini_howto] *)
Definition print_mini_howto : M test unit :=
  pgm <- gets m_pgm_name;;
  put cout ("Syntax:" +:+ LF);;
  put cout (TAB +:+ "'");; put cout pgm;;
  put cout (" --desc' will display a description of the test" +:+ LF);;
  put cout (TAB +:+ "'");; put cout pgm;;
  put cout (" --exec' will execute the all the tests" +:+ LF);;
  put cout (TAB +:+ "'");; put cout pgm;;
  put cout (" --exec { <test-name-1> <test-name-2> ...}' will execute tests "
            +:+ "defined between '{' and '}'" +:+ LF);;
  put cout (TAB +:+ "'");; put cout pgm;;
  put cout ("' displays this message" +:+ LF +:+ LF);;
  put cout ("For the programmers: " +:+ LF);;
  put cout (TAB +:+ "1 - Programmers should use 'std::cerr' to print messages"
            +:+ LF);;
  put cout (TAB +:+ "2 - If do not want your 'std::cerr' messages to be "
            +:+ "displayed, " +:+ "use" +:+ LF);;
  put cout (TAB +:+ "'");; put cout pgm;;
  put cout (" --exec 2> /dev/null' to execute the tests" +:+ LF +:+ LF);;
  put cout ("Output:" +:+ LF);;
  put cout (TAB +:+ "If the test passes, the message " +:+ DQUOTE
            +:+ "SUCCESS for <name>" +:+ DQUOTE +:+ " will " +:+ "be "
            +:+ "printed" +:+ LF);;
  put cout (TAB +:+ "If the test does not pass, the message " +:+ DQUOTE
            +:+ "FAIL for <name>" +:+ DQUOTE +:+ " " +:+ "will " +:+ "be "
            +:+ "printed" +:+ LF);;
  put cout (TAB +:+ "If an error occurr while executing the test , the "
            +:+ "message " +:+ DQUOTE +:+ "ERROR "
            +:+ "for <name> <desc>" +:+ DQUOTE +:+ " will be printed" +:+ LF);;
  put cout (TAB +:+ "If an exception occurrs, the message " +:+ DQUOTE
            +:+ "EXCEPTION " +:+ "<description>" +:+ DQUOTE +:+ " "
            +:+ "will be printed");;
  endl cout.

(** The handler shared by the constructor and [run]:
    [std::cout << "EXCEPTION '" << _ex.what() << "'" << std::endl; return;] *)
Definition report_exception (what : string) : M test unit :=
  put cout "EXCEPTION '";; put cout what;; put cout "'";; endl cout.

(** The [try] block of the constructor. *)
Definition resolve_mode (p_mandatory : list string) : M test unit :=
  argc <- gets m_argc;;
  argv <- gets m_argv;;
  o <- gets m_options;;
  (let '(o', r) := parse o argc argv p_mandatory in
   modify (set_options o');; lift r);;
  o <- gets m_options;;
  is_exec <- lift (get_bool_param o "exec");;
  (if is_exec : bool then modify (set_execute_tests true)
   else
     is_desc <- lift (get_bool_param o "desc");;
     if is_desc : bool then modify (set_print_desc true)
     else
       _maybe <- lift (get_set_param o "exec");;
       match _maybe with
       | Some _tests_to_exec =>
           modify (set_execute_tests true);;
           modify (fun t =>
                     set_tests_to_exec
                       (list_to_set _tests_to_exec ∪ m_tests_to_exec t) t)
       | None => ret tt
       end);;
  execute_tests <- gets m_execute_tests;;
  print_desc <- gets m_print_desc;;
  if negb execute_tests && negb print_desc then print_mini_howto
  else ret tt.

(** The object after the member initialisers and [m_pgm_name = m_argv[0]]. *)
Definition initial (argc : Z) (argv : list string) (pgm : string) : test :=
  {| m_pgm_name := pgm;
     m_execute_tests := false;
     m_print_desc := false;
     m_argc := argc;
     m_argv := argv;
     m_tests_to_exec := ∅;
     m_options := options_init |}.

(** [test(int argc, char **argv, initializer_list<name> &&p_mandatory)
    noexcept].  [argv] is the array of the [argc] argument strings;
    reading [m_argv[0]] when there is none is undefined: [None]. *)
Definition new_test (argc : Z) (argv : list string)
           (p_mandatory : list string)
  : option (test * list event * outcome unit) :=
  match argv !! 0%nat with
  | None => None
  | Some pgm =>
      Some (noexcept (try_catch (resolve_mode p_mandatory) report_exception)
                     (initial argc argv pgm))
  end.

(** [template <typename t_test_class> void exec(const std::string)]

    The operands of a chain of [<<] are evaluated from left to right
    (the rule of C++17, the standard this header needs for its nested
    namespace definition and [std::optional]): the beginning of the
    opening banner is written before [desc] is called.  [_test_obj] is
    declared in the [try] block and lives to its end. *)
Definition exec (T : t_test_class) (p_test_name : string) : M test unit :=
  try_catch
    (enter default_ctor (construct T);;
     with_object (emit Destroy;; lift (destroy T))
       (put cerr (LF +:+ "############ -> ");;
        put cerr p_test_name;;
        put cerr " - ";;
        d <- enter static_desc (desc T);;
        put cerr d;;
        endl cerr;;
        o <- gets m_options;;
        result <- enter call_operator (call T o);;
        put cout p_test_name;;
        put cout (if result : bool then " SUCCESS" else " FAIL");;
        endl cout))
    (fun what =>
       put cout "ERROR for ";; put cout p_test_name;; put cout " '";;
       put cout what;; put cout "'";; endl cout);;
  put cerr "############ <- ";;
  put cerr p_test_name;;
  endl cerr.

(** The [try] block of [run]; also here the name and the colon are
    written before [desc] is called. *)
Definition run_try (T : t_test_class) (p_test_name : string) : M test unit :=
  print_desc <- gets m_print_desc;;
  if print_desc : bool then
    put cout p_test_name;;
    put cout ": ";;
    d <- enter static_desc (desc T);;
    put cout d;;
    put cout LF;;
    endl cout
  else
    execute_tests <- gets m_execute_tests;;
    if execute_tests : bool then
      tests_to_exec <- gets m_tests_to_exec;;
      if negb (bool_decide (tests_to_exec = ∅)) then
        if bool_decide (p_test_name ∈ tests_to_exec) then exec T p_test_name
        else ret tt
      else exec T p_test_name
    else ret tt.

(** [template <typename t_test_class> void run(const std::string &) noexcept] *)
Definition run (T : t_test_class) (p_test_name : string)
  : test -> test * list event * outcome unit :=
  noexcept (try_catch (run_try T p_test_name) report_exception).

(** A program that calls [run] for its tests one after the other, as
    [main] does with [run_test]; a call that ends in [std::terminate]
    ends the program. *)
Fixpoint run_tests (tests : list (string * t_test_class)) (t : test)
  : test * list event * outcome unit :=
  match tests with
  | [] => (t, [], Returned tt)
  | (name, T) :: rest =>
      match run T name t with
      | (t1, tr1, Returned _) =>
          let '(t2, tr2, o) := run_tests rest t1 in (t2, tr1 ++ tr2, o)
      | (t1, tr1, Terminated) => (t1, tr1, Terminated)
      end
  end.

End Runner.

(** ** The test classes of [tst/main.cpp]

    None of them declares a constructor or a destructor. *)
Section Main.
Context `{Options}.

Definition test_ok : t_test_class :=
  {| construct := Ret tt;
     desc := Ret "an ok test";
     call := fun _ => Ret true;
     destroy := Ret tt |}.

Definition test_fail : t_test_class :=
  {| construct := Ret tt;
     desc := Ret "a fail test";
     call := fun _ => Ret true;
     destroy := Ret tt |}.

(** Its [operator()] throws and catches inside, and returns [true]. *)
Definition test_error : t_test_class :=
  {| construct := Ret tt;
     desc := Ret "an eror test";
     call := fun _ => Ret true;
     destroy := Ret tt |}.

(** The classes [main] hands to [run_test], which names each test
    after its class. *)
Definition registered : list (string * t_test_class) :=
  [("test_ok", test_ok); ("test_fail", test_fail); ("test_error", test_error)].
End Main.

(** ** A command-line parser to run the runner on concrete command lines

    It follows the three forms the runner documents in its how-to:
    [--name] (a flag), [--name value] and [--name { v1 v2 ... }] (a set),
    and throws when a mandatory option is absent or a set is left open. *)
Module Sample.

Record parsed : Type := mk_parsed {
  bools : list string;
  singles : list (string * string);
  sets : list (string * list string);
}.

Inductive scanning : Type :=
| Between
| AfterName (n : string)
| InsideSet (n : string) (acc : list string).

Definition option_name (tok : string) : option string :=
  if String.prefix "--" tok
  then Some (String.substring 2 (String.length tok - 2) tok)
  else None.

Fixpoint scan (toks : list string) (st : scanning) (p : parsed)
  : parsed * res unit :=
  match toks with
  | [] =>
      match st with
      | Between => (p, Ret tt)
      | AfterName n => (mk_parsed (n :: bools p) (singles p) (sets p), Ret tt)
      | InsideSet n _ =>
          (p, Throw (std_exception ("set '" +:+ n +:+ "' is not closed")))
      end
  | tok :: rest =>
      match st with
      | Between =>
          match option_name tok with
          | Some n => scan rest (AfterName n) p
          | None =>
              (p, Throw (std_exception ("unexpected '" +:+ tok +:+ "'")))
          end
      | AfterName n =>
          if String.eqb tok "{" then scan rest (InsideSet n []) p
          else
            match option_name tok with
            | Some n' =>
                scan rest (AfterName n')
                     (mk_parsed (n :: bools p) (singles p) (sets p))
            | None =>
                scan rest Between
                     (mk_parsed (bools p) ((n, tok) :: singles p) (sets p))
            end
      | InsideSet n acc =>
          if String.eqb tok "}"
          then scan rest Between
                    (mk_parsed (bools p) (singles p) ((n, rev acc) :: sets p))
          else scan rest (InsideSet n (tok :: acc)) p
      end
  end.

Definition defined (p : parsed) (n : string) : bool :=
  bool_decide (n ∈ bools p) || bool_decide (n ∈ (singles p).*1)
  || bool_decide (n ∈ (sets p).*1).

Definition sample_parse (p : parsed) (argc : Z) (argv : list string)
           (mandatory : list string) : parsed * res unit :=
  match scan (tail argv) Between p with
  | (p', Ret _) =>
      match filter (fun n => defined p' n = false) mandatory with
      | [] => (p', Ret tt)
      | n :: _ =>
          (p', Throw (std_exception ("parameter '" +:+ n +:+ "' is missing")))
      end
  | failed => failed
  end.

Definition lookup_set (p : parsed) (n : string) : option (list string) :=
  (fun found => snd (snd found)) <$> list_find (fun kv => fst kv = n) (sets p).

#[export] Instance sample_options : Options := {|
  options := parsed;
  options_init := mk_parsed [] [] [];
  parse := sample_parse;
  get_bool_param := fun p n => Ret (bool_decide (n ∈ bools p));
  get_set_param := fun p n => Ret (lookup_set p n);
|}.

(** A test whose [operator()] returns [false]. *)
Definition failing : t_test_class :=
  {| construct := Ret tt; desc := Ret "returns false";
     call := fun _ => Ret false;
     destroy := Ret tt |}.

(** [operator()] executes [throw std::runtime_error("boom")]. *)
Definition throwing : t_test_class :=
  {| construct := Ret tt; desc := Ret "throws a runtime_error";
     call := fun _ => Throw (std_exception "boom");
     destroy := Ret tt |}.

(** [operator()] executes [throw 42]. *)
Definition throwing_int : t_test_class :=
  {| construct := Ret tt; desc := Ret "throws an int";
     call := fun _ => Throw not_std_exception;
     destroy := Ret tt |}.

(** The default constructor throws a [std::exception]. *)
Definition broken_ctor : t_test_class :=
  {| construct := Throw (std_exception "no fixture");
     desc := Ret "cannot be built";
     call := fun _ => Ret true;
     destroy := Ret tt |}.

(** [desc] throws a [std::exception]. *)
Definition broken_desc : t_test_class :=
  {| construct := Ret tt;
     desc := Throw (std_exception "no description");
     call := fun _ => Ret true;
     destroy := Ret tt |}.

(** [operator()] returns [true]; the destructor, declared
    [noexcept(false)], throws a [std::runtime_error]. *)
Definition throwing_dtor : t_test_class :=
  {| construct := Ret tt; desc := Ret "throws when destroyed";
     call := fun _ => Ret true;
     destroy := Throw (std_exception "late") |}.

(** [operator()] throws a [std::runtime_error], and so does the
    destructor. *)
Definition throwing_twice : t_test_class :=
  {| construct := Ret tt; desc := Ret "throws twice";
     call := fun _ => Throw (std_exception "boom");
     destroy := Throw (std_exception "again") |}.

(** [desc] throws a [std::exception], and so does the destructor. *)
Definition broken_desc_dtor : t_test_class :=
  {| construct := Ret tt;
     desc := Throw (std_exception "no description");
     call := fun _ => Ret true;
     destroy := Throw (std_exception "again") |}.

(** The runner after [prog --exec]. *)
Definition exec_all : test :=
  mk_test "prog" true false 2 ["prog"; "--exec"] ∅
          (mk_parsed ["exec"] [] []).

(** The runner after [prog --exec { A C }]. *)
Definition exec_a_c : test :=
  mk_test "prog" true false 6 ["prog"; "--exec"; "{"; "A"; "C"; "}"]
          (list_to_set ["A"; "C"])
          (mk_parsed [] [] [("exec", ["A"; "C"])]).

(** The runner after [prog --desc]. *)
Definition describing : test :=
  mk_test "prog" false true 2 ["prog"; "--desc"] ∅
          (mk_parsed ["desc"] [] []).

(** The runner after [prog]. *)
Definition idle : test :=
  mk_test "prog" false false 1 ["prog"] ∅ (mk_parsed [] [] []).

(** A parser that answers as scripted: the result of [parse], of
    [get_bool_param] for [exec] and for any other name, and of
    [get_set_param]. *)
Definition scripted (parsing : res unit) (is_exec is_desc : res bool)
           (set_exec : res (option (list string))) : Options :=
  {| options := unit;
     options_init := tt;
     parse := fun _ _ _ _ => (tt, parsing);
     get_bool_param := fun _ n => if String.eqb n "exec" then is_exec
                                  else is_desc;
     get_set_param := fun _ _ => set_exec |}.

End Sample.

(** ** Vocabulary of the specification *)

Definition state_of {S A} (x : S * list event * A) : S := x.1.1.
Definition trace_of {S A} (x : S * list event * A) : list event := x.1.2.
Definition ending_of {S A} (x : S * list event * A) : A := x.2.

(** The lines the specification names, without their line ends. *)
Definition opening_banner (name description : string) : string :=
  "############ -> " +:+ name +:+ " - " +:+ description.
Definition closing_banner (name : string) : string :=
  "############ <- " +:+ name.
Definition success_line (name : string) : string := name +:+ " SUCCESS".
Definition fail_line (name : string) : string := name +:+ " FAIL".
Definition error_line (name what : string) : string :=
  "ERROR for " +:+ name +:+ " '" +:+ what +:+ "'".
Definition exception_line (what : string) : string :=
  "EXCEPTION '" +:+ what +:+ "'".
Definition description_line (name description : string) : string :=
  name +:+ ": " +:+ description.

(** The writes of [exec], piece by piece. *)
Definition banner_start (name : string) : list event :=
  [Write cerr (LF +:+ "############ -> "); Write cerr name; Write cerr " - "].
Definition result_writes (name : string) (result : bool) : list event :=
  [Write cout name; Write cout (if result then " SUCCESS" else " FAIL");
   Write cout LF].
Definition error_writes (name what : string) : list event :=
  [Write cout "ERROR for "; Write cout name; Write cout " '";
   Write cout what; Write cout "'"; Write cout LF].
Definition closing_writes (name : string) : list event :=
  [Write cerr "############ <- "; Write cerr name; Write cerr LF].

(** The last character of a line; it tells the outcome lines apart. *)
Fixpoint last_char (s : string) : option ascii :=
  match s with
  | EmptyString => None
  | String a EmptyString => Some a
  | String _ s' => last_char s'
  end.

(** The modes of the glossary. *)
Inductive mode : Type := Idle | Describe | Execute_All | Execute_Selected.

Section Vocabulary.
Context `{Options}.

Definition in_mode (t : test) (m : mode) : Prop :=
  match m with
  | Idle =>
      m_execute_tests t = false ∧ m_print_desc t = false
      ∧ m_tests_to_exec t = ∅
  | Describe =>
      m_execute_tests t = false ∧ m_print_desc t = true
      ∧ m_tests_to_exec t = ∅
  | Execute_All =>
      m_execute_tests t = true ∧ m_print_desc t = false
      ∧ m_tests_to_exec t = ∅
  | Execute_Selected =>
      m_execute_tests t = true ∧ m_print_desc t = false
      ∧ m_tests_to_exec t ≠ ∅
  end.

(** [name] passes the filter of [run]. *)
Definition selected (t : test) (name : string) : Prop :=
  m_tests_to_exec t = ∅ ∨ name ∈ m_tests_to_exec t.

(** What the entry points of a test class throw first, when the
    execution step calls them in its order. *)
Definition raised (T : t_test_class) (o : options) : option thrown :=
  match construct T with
  | Throw e => Some e
  | Ret _ =>
      match desc T with
      | Throw e => Some e
      | Ret _ =>
          match call T o with
          | Throw e => Some e
          | Ret _ => None
          end
      end
  end.

(** No entry point of the class throws something that is not a
    [std::exception]. *)
Definition throws_std_only (T : t_test_class) (o : options) : Prop :=
  construct T ≠ Throw not_std_exception
  ∧ desc T ≠ Throw not_std_exception
  ∧ call T o ≠ Throw not_std_exception.

(** The description of a class whose [desc] returns. *)
Definition describes (T : t_test_class) (d : string) : Prop :=
  desc T = Ret d.

(** What [--desc] is expected to print for a list of registered tests. *)
Fixpoint descriptions (tests : list (string * t_test_class)) : string :=
  match tests with
  | [] => ""
  | (name, T) :: rest =>
      match desc T with
      | Ret d => description_line name d +:+ LF +:+ LF +:+ descriptions rest
      | Throw _ => descriptions rest
      end
  end.

End Vocabulary.

(** The entry points entered, in the order of the trace. *)
Fixpoint entries (tr : list event) : list entry :=
  match tr with
  | [] => []
  | Enter e :: tr' => e :: entries tr'
  | Write _ _ :: tr' | Destroy :: tr' => entries tr'
  end.

Section Outcomes.
Context `{Options}.

(** The parser throws [e], at [parse] or at the first getter the
    constructor reaches, and leaves the options object [o']. *)
Definition parser_throws (argc : Z) (argv p_mandatory : list string)
           (e : thrown) (o' : options) : Prop :=
  parse options_init argc argv p_mandatory = (o', Throw e)
  ∨ (parse options_init argc argv p_mandatory = (o', Ret tt)
     ∧ (get_bool_param o' "exec" = Throw e
        ∨ (get_bool_param o' "exec" = Ret false
           ∧ (get_bool_param o' "desc" = Throw e
              ∨ (get_bool_param o' "desc" = Ret false
                 ∧ get_set_param o' "exec" = Throw e))))).

(** What one executed test leaves on standard output: its outcome line
    with the line end, or nothing when something that is not a
    [std::exception] is thrown. *)
Definition outcome_text (T : t_test_class) (o : options) (name : string)
  : string :=
  match raised T o with
  | Some (std_exception what) => error_line name what +:+ LF
  | Some not_std_exception => ""
  | None =>
      match call T o with
      | Ret true => success_line name +:+ LF
      | Ret false => fail_line name +:+ LF
      | Throw _ => ""
      end
  end.

(** The outcome lines of a list of tests, in their order. *)
Fixpoint outcomes (tests : list (string * t_test_class)) (o : options)
  : string :=
  match tests with
  | [] => ""
  | (name, T) :: rest => outcome_text T o name +:+ outcomes rest o
  end.

(** The registered tests that pass the filter of [run]. *)
Definition selection (t : test) (tests : list (string * t_test_class))
  : list (string * t_test_class) :=
  filter (λ nt, selected t nt.1) tests.

End Outcomes.

(** * Properties *)

(** ** Strings and traces *)

Lemma append_assoc (s1 s2 s3 : string) : (s1 +:+ s2) +:+ s3 = s1 +:+ s2 +:+ s3.
Proof.
  induction s1 as [|a s1 IH]; [reflexivity|].
  change (String a ((s1 +:+ s2) +:+ s3) = String a (s1 +:+ s2 +:+ s3)).
  by rewrite IH.
Qed.

Lemma written_app (s : stream) (tr1 tr2 : list event) :
  written s (tr1 ++ tr2) = written s tr1 +:+ written s tr2.
Proof.
  induction tr1 as [|[s' text|e|] tr1 IH]; cbn [written app]; [done| |done..].
  destruct (same_stream s' s); [|done]. by rewrite IH, append_assoc.
Qed.

Lemma entered_app (e : entry) (tr1 tr2 : list event) :
  entered e (tr1 ++ tr2) = (entered e tr1 + entered e tr2)%nat.
Proof.
  induction tr1 as [|[s text|e'|] tr1 IH]; cbn [entered app]; [done..| |done].
  destruct (same_entry e' e); by rewrite IH.
Qed.

Lemma last_char_append (s1 s2 : string) :
  s2 ≠ "" → last_char (s1 +:+ s2) = last_char s2.
Proof.
  intros Hne. induction s1 as [|a s1 IH]; [reflexivity|].
  change (last_char (String a (s1 +:+ s2)) = last_char s2).
  destruct (s1 +:+ s2) eqn:E.
  - destruct s1; [|discriminate]. change (s2 = "") in E. congruence.
  - rewrite <- IH. reflexivity.
Qed.

Ltac unfold_cpp :=
  unfold enter, endl, put, emit, lift, ret, gets, modify, bind.

Section Facts.
Context `{Options}.
Implicit Types (T : t_test_class) (t : test) (name : string).

(** *** The execution step, path by path *)

(** Every way through [exec], with its trace and its ending. *)
Lemma exec_paths T name t :
  exec T name t
  = match construct T with
    | Throw (std_exception what) =>
        (t, [Enter default_ctor] ++ error_writes name what
            ++ closing_writes name, Normal tt)
    | Throw not_std_exception =>
        (t, [Enter default_ctor], Raise not_std_exception)
    | Ret _ =>
        match desc T with
        | Throw (std_exception what) =>
            match destroy T with
            | Ret _ =>
                (t, [Enter default_ctor] ++ banner_start name
                    ++ [Enter static_desc; Destroy]
                    ++ error_writes name what ++ closing_writes name,
                 Normal tt)
            | Throw _ =>
                (t, [Enter default_ctor] ++ banner_start name
                    ++ [Enter static_desc; Destroy], Halt)
            end
        | Throw not_std_exception =>
            (t, [Enter default_ctor] ++ banner_start name
                ++ [Enter static_desc], Raise not_std_exception)
        | Ret d =>
            match call T (m_options t) with
            | Throw (std_exception what) =>
                match destroy T with
                | Ret _ =>
                    (t, [Enter default_ctor] ++ banner_start name
                        ++ [Enter static_desc; Write cerr d; Write cerr LF;
                            Enter call_operator; Destroy]
                        ++ error_writes name what ++ closing_writes name,
                     Normal tt)
                | Throw _ =>
                    (t, [Enter default_ctor] ++ banner_start name
                        ++ [Enter static_desc; Write cerr d; Write cerr LF;
                            Enter call_operator; Destroy], Halt)
                end
            | Throw not_std_exception =>
                (t, [Enter default_ctor] ++ banner_start name
                    ++ [Enter static_desc; Write cerr d; Write cerr LF;
                        Enter call_operator], Raise not_std_exception)
            | Ret result =>
                match destroy T with
                | Ret _ =>
                    (t, [Enter default_ctor] ++ banner_start name
                        ++ [Enter static_desc; Write cerr d; Write cerr LF;
                            Enter call_operator]
                        ++ result_writes name result ++ [Destroy]
                        ++ closing_writes name, Normal tt)
                | Throw (std_exception what) =>
                    (t, [Enter default_ctor] ++ banner_start name
                        ++ [Enter static_desc; Write cerr d; Write cerr LF;
                            Enter call_operator]
                        ++ result_writes name result ++ [Destroy]
                        ++ error_writes name what ++ closing_writes name,
                     Normal tt)
                | Throw not_std_exception =>
                    (t, [Enter default_ctor] ++ banner_start name
                        ++ [Enter static_desc; Write cerr d; Write cerr LF;
                            Enter call_operator]
                        ++ result_writes name result ++ [Destroy],
                     Raise not_std_exception)
                end
            end
        end
    end.
Proof.
  unfold exec, with_object, try_catch. unfold_cpp.
  destruct (construct T) as [[]|[what|]]; cbn; [|reflexivity..].
  destruct (desc T) as [d|[what|]]; cbn;
    [|destruct (destroy T) as [[]|[what'|]]; reflexivity|reflexivity].
  destruct (call T (m_options t)) as [result|[what|]]; cbn;
    [|destruct (destroy T) as [[]|[what'|]]; reflexivity|reflexivity].
  destruct (destroy T) as [[]|[what'|]]; reflexivity.
Qed.

(** The paths of [exec], one goal each, with the results of the test
    class in the context. *)
Ltac exec_cases T name t :=
  rewrite ?(exec_paths T name t);
  let E1 := fresh "Ector" in
  let E2 := fresh "Edesc" in
  let E3 := fresh "Ecall" in
  let E4 := fresh "Edtor" in
  destruct (construct T) as [[]|[?what|]] eqn:E1;
  [ destruct (desc T) as [?d|[?what|]] eqn:E2;
    [ destruct (call T (m_options t)) as [?result|[?what|]] eqn:E3;
      [ destruct (destroy T) as [[]|[?what|]] eqn:E4
      | destruct (destroy T) as [[]|[?what|]] eqn:E4
      | ]
    | destruct (destroy T) as [[]|[?what|]] eqn:E4
    | ]
  | | ].

(** The step never changes the object, always enters the default
    constructor first, and lets no [std::exception] out. *)
Lemma exec_shape T name t :
  ∃ tr r,
    exec T name t = (t, Enter default_ctor :: tr, r)
    ∧ (r = Normal tt ∨ r = Raise not_std_exception ∨ r = Halt).
Proof.
  exec_cases T name t; eexists _, _; (split; [reflexivity|]); auto.
Qed.

(** *** [run], case by case *)

Lemma run_try_unfiltered T name t :
  m_print_desc t = false → m_execute_tests t = true → selected t name →
  run_try T name t = exec T name t.
Proof.
  intros Hd He Hsel. unfold run_try. unfold_cpp. rewrite Hd, He.
  destruct (exec_shape T name t) as (tr & r & E & _).
  destruct Hsel as [Hsel|Hsel].
  - rewrite (bool_decide_eq_true_2 _ Hsel). cbn. by rewrite E.
  - destruct (bool_decide (m_tests_to_exec t = ∅)); cbn;
      [|rewrite (bool_decide_eq_true_2 _ Hsel)]; by rewrite E.
Qed.

Lemma run_executes T name t :
  m_print_desc t = false → m_execute_tests t = true → selected t name →
  run T name t = noexcept (exec T name) t.
Proof.
  intros Hd He Hsel. unfold run, noexcept, try_catch.
  rewrite (run_try_unfiltered _ _ _ Hd He Hsel).
  destruct (exec_shape T name t) as (tr & r & E & [->|[->| ->]]);
    by rewrite E.
Qed.

Lemma run_skips T name t :
  m_print_desc t = false → ¬ (m_execute_tests t = true ∧ selected t name) →
  run T name t = (t, [], Returned tt).
Proof.
  intros Hd Hno. unfold run, noexcept, try_catch, run_try. unfold_cpp.
  rewrite Hd. destruct (m_execute_tests t); [|reflexivity].
  destruct (decide (m_tests_to_exec t = ∅)) as [Hem|Hem].
  { destruct Hno. split; [done|by left]. }
  rewrite (bool_decide_eq_false_2 _ Hem). cbn.
  destruct (decide (name ∈ m_tests_to_exec t)) as [Hin|Hin].
  { destruct Hno. split; [done|by right]. }
  by rewrite (bool_decide_eq_false_2 _ Hin).
Qed.

Lemma run_describes T name t d :
  m_print_desc t = true → desc T = Ret d →
  run T name t =
    (t,
     [Write cout name; Write cout ": "; Enter static_desc; Write cout d;
      Write cout LF; Write cout LF],
     Returned tt).
Proof.
  intros Hd E. unfold run, noexcept, try_catch, run_try. unfold_cpp.
  rewrite Hd. cbn. rewrite E. reflexivity.
Qed.

Lemma run_describe_throws T name t what :
  m_print_desc t = true → desc T = Throw (std_exception what) →
  run T name t =
    (t,
     [Write cout name; Write cout ": "; Enter static_desc;
      Write cout "EXCEPTION '"; Write cout what; Write cout "'";
      Write cout LF],
     Returned tt).
Proof.
  intros Hd E. unfold run, noexcept, try_catch, run_try. unfold_cpp.
  rewrite Hd. cbn. rewrite E. reflexivity.
Qed.

(** [run] never assigns to a data member. *)
Lemma run_state T name t : state_of (run T name t) = t.
Proof.
  destruct (m_print_desc t) eqn:Hd.
  - unfold run, noexcept, try_catch, run_try. unfold_cpp. rewrite Hd. cbn.
    by destruct (desc T) as [d|[what|]].
  - destruct (decide (m_execute_tests t = true ∧ selected t name))
      as [[He Hsel]|Hno].
    + rewrite (run_executes _ _ _ Hd He Hsel). unfold noexcept.
      destruct (exec_shape T name t) as (tr & r & E & [->|[->| ->]]);
        by rewrite E.
    + by rewrite (run_skips _ _ _ Hd Hno).
Qed.

Lemma run_tests_state tests t : state_of (run_tests tests t) = t.
Proof.
  induction tests as [|[name T] rest IH]; [reflexivity|].
  cbn [run_tests]. pose proof (run_state T name t) as Hs.
  destruct (run T name t) as [[t1 tr1] [[]|]]; cbn in Hs; subst t1; [|done].
  by destruct (run_tests rest t) as [[t2 tr2] o].
Qed.

Lemma run_tests_skipped tests t :
  m_print_desc t = false → m_tests_to_exec t ≠ ∅ →
  Forall (λ nt, nt.1 ∉ m_tests_to_exec t) tests →
  run_tests tests t = (t, [], Returned tt).
Proof.
  intros Hd Hne Hall. induction Hall as [|[name T] rest Hout _ IH];
    [reflexivity|].
  cbn [run_tests]. rewrite run_skips, IH; [reflexivity|done|].
  intros [_ [Hem|Hin]]; [by apply Hne|by apply Hout].
Qed.

Lemma run_tests_filter tests t :
  m_print_desc t = false → m_execute_tests t = true →
  m_tests_to_exec t ≠ ∅ →
  run_tests tests t
  = run_tests (filter (λ nt, nt.1 ∈ m_tests_to_exec t) tests) t.
Proof.
  intros Hd He Hne. induction tests as [|[name T] rest IH]; [reflexivity|].
  destruct (decide (name ∈ m_tests_to_exec t)) as [Hin|Hout].
  - rewrite filter_cons_True by done. cbn [run_tests].
    pose proof (run_state T name t) as Hs.
    destruct (run T name t) as [[t1 tr1] [[]|]]; cbn in Hs; subst t1;
      [|done].
    by rewrite IH.
  - rewrite filter_cons_False by done. cbn [run_tests].
    rewrite run_skips; [|done|].
    + rewrite <- IH. by destruct (run_tests rest t) as [[t2 tr2] o].
    + intros [_ [Hem|Hin]]; [by apply Hne|by apply Hout].
Qed.

(** *** Selection *)

(** C1. When the runner is not describing, a call [run(name, T)] is the
    execution step exactly when the runner executes and the selection
    set is empty or holds [name] (the step then shows in the trace by
    the construction of the test object); every other call changes
    nothing and prints nothing.  So a program prints what its
    registered tests with a selected name print, and nothing at all
    when no registered name is selected: a selected name without a
    registered test leaves no line. *)
Theorem run_selection T name t :
  m_print_desc t = false →
  (m_execute_tests t = true ∧ selected t name →
     run T name t = noexcept (exec T name) t
     ∧ Enter default_ctor ∈ trace_of (run T name t))
  ∧ (¬ (m_execute_tests t = true ∧ selected t name) →
     run T name t = (t, [], Returned tt))
  ∧ (∀ tests, m_execute_tests t = true → m_tests_to_exec t ≠ ∅ →
       run_tests tests t
       = run_tests (filter (λ nt, nt.1 ∈ m_tests_to_exec t) tests) t)
  ∧ (∀ tests, m_tests_to_exec t ≠ ∅ →
       Forall (λ nt, nt.1 ∉ m_tests_to_exec t) tests →
       run_tests tests t = (t, [], Returned tt)).
Proof.
  intros Hd. split; [|split; [|split]].
  - intros [He Hsel]. rewrite run_executes by done. split; [done|].
    unfold noexcept, trace_of.
    destruct (exec_shape T name t) as (tr & r & E & [->|[->| ->]]);
      rewrite E; cbn; apply list_elem_of_here.
  - intros Hno. by apply run_skips.
  - intros tests He Hne. by apply run_tests_filter.
  - intros tests Hne Hall. by apply run_tests_skipped.
Qed.

(** *** Outcome lines *)

Lemma outcome_lines_differ name name' name'' what :
  error_line name what ≠ success_line name'
  ∧ error_line name what ≠ fail_line name''
  ∧ success_line name' ≠ fail_line name''.
Proof.
  assert (last_char (error_line name what) = Some "'"%char) as He.
  { unfold error_line. rewrite <- !append_assoc.
    by rewrite last_char_append. }
  assert (last_char (success_line name') = Some "S"%char) as Hs.
  { unfold success_line. by rewrite last_char_append. }
  assert (last_char (fail_line name'') = Some "L"%char) as Hf.
  { unfold fail_line. by rewrite last_char_append. }
  repeat split; intros E; [rewrite E in He|rewrite E in He|rewrite E in Hs];
    congruence.
Qed.

(** C2 as the code has it.  Take an execution step that reaches
    [operator()]: the test object is built and [desc] returns.  When
    the destructor of the object returns, the step writes exactly one
    line on standard output, which the result of [operator()] decides:
    [<name> SUCCESS] for [true], [<name> FAIL] for [false],
    [ERROR for <name> '<m>'] for a [std::exception] with message [m];
    the three lines are never the same.  When the destructor throws a
    [std::exception] after [operator()] has returned, an [ERROR] line
    follows the [SUCCESS] or [FAIL] line.  When [operator()] throws
    what is not a [std::exception], or the destructor throws while the
    exception of [operator()] is on its way to the handler, no line is
    written and the step does not return. *)
Theorem exec_outcome_line T name t d :
  construct T = Ret tt → desc T = Ret d →
  (destroy T = Ret tt →
     (call T (m_options t) = Ret true →
        written cout (trace_of (exec T name t)) = success_line name +:+ LF)
     ∧ (call T (m_options t) = Ret false →
        written cout (trace_of (exec T name t)) = fail_line name +:+ LF)
     ∧ (∀ what, call T (m_options t) = Throw (std_exception what) →
        written cout (trace_of (exec T name t))
        = error_line name what +:+ LF))
  ∧ (∀ what, error_line name what ≠ success_line name
             ∧ error_line name what ≠ fail_line name
             ∧ success_line name ≠ fail_line name)
  ∧ (∀ result what,
       call T (m_options t) = Ret result →
       destroy T = Throw (std_exception what) →
       written cout (trace_of (exec T name t))
       = (if result then success_line name else fail_line name) +:+ LF
         +:+ error_line name what +:+ LF
       ∧ ending_of (exec T name t) = Normal tt)
  ∧ (∀ result,
       call T (m_options t) = Ret result →
       destroy T = Throw not_std_exception →
       written cout (trace_of (exec T name t))
       = (if result then success_line name else fail_line name) +:+ LF
       ∧ ending_of (exec T name t) = Raise not_std_exception)
  ∧ (call T (m_options t) = Throw not_std_exception →
     written cout (trace_of (exec T name t)) = ""
     ∧ ending_of (exec T name t) = Raise not_std_exception)
  ∧ (∀ what e,
       call T (m_options t) = Throw (std_exception what) →
       destroy T = Throw e →
       written cout (trace_of (exec T name t)) = ""
       ∧ ending_of (exec T name t) = Halt).
Proof.
  intros E1 E2. rewrite exec_paths, E1, E2.
  unfold success_line, fail_line, error_line.
  split; [|split; [|split; [|split; [|split]]]].
  - intros E4. split; [|split].
    + intros E3. rewrite E3, E4. cbn. by rewrite !append_assoc.
    + intros E3. rewrite E3, E4. cbn. by rewrite !append_assoc.
    + intros what E3. rewrite E3, E4. cbn. by rewrite !append_assoc.
  - intros what. apply outcome_lines_differ.
  - intros result what E3 E4. rewrite E3, E4. split; [|reflexivity].
    destruct result; cbn; by rewrite !append_assoc.
  - intros result E3 E4. rewrite E3, E4. split; [|reflexivity].
    destruct result; cbn; by rewrite !append_assoc.
  - intros E3. rewrite E3. done.
  - intros what e E3 E4. rewrite E3, E4. by destruct e.
Qed.

(** *** Construction *)

Ltac unfold_ctor :=
  unfold noexcept, try_catch, resolve_mode, report_exception,
    print_mini_howto;
  unfold_cpp.

Ltac ask_options :=
  repeat match goal with
    | |- context [parse ?o ?c ?v ?m] =>
        destruct (parse o c v m) as [? [[]|[?|]]] eqn:?; cbn
    | |- context [get_bool_param ?o ?n] =>
        destruct (get_bool_param o n) as [[]|[?|]] eqn:?; cbn
    | |- context [get_set_param ?o ?n] =>
        destruct (get_set_param o n) as [[?|]|[?|]] eqn:?; cbn
    end.

(** What the body of the constructor keeps and establishes, whatever
    the parser does. *)
Lemma constructor_body p_mandatory t0 :
  m_execute_tests t0 = false → m_print_desc t0 = false →
  m_tests_to_exec t0 = ∅ →
  ∃ t1 tr o,
    noexcept (try_catch (resolve_mode p_mandatory) report_exception) t0
    = (t1, tr, o)
    ∧ m_pgm_name t1 = m_pgm_name t0
    ∧ m_argc t1 = m_argc t0
    ∧ m_argv t1 = m_argv t0
    ∧ ¬ (m_execute_tests t1 = true ∧ m_print_desc t1 = true)
    ∧ (m_tests_to_exec t1 ≠ ∅ → m_execute_tests t1 = true).
Proof.
  destruct t0 as [pgm e d argc argv sel o]. cbn. intros -> -> ->.
  unfold_ctor. cbn. ask_options;
    (eexists _, _, _; split; [reflexivity|]; cbn;
     repeat split; try done; intros []; done).
Qed.

Lemma new_test_defined argc argv p_mandatory pgm :
  argv !! 0%nat = Some pgm →
  new_test argc argv p_mandatory
  = Some (noexcept (try_catch (resolve_mode p_mandatory) report_exception)
                   (initial argc argv pgm)).
Proof. intros E. unfold new_test. by rewrite E. Qed.

(** C3. Once the command line is parsed, the constructor settles the
    mode in a fixed order: the boolean flag [exec] gives execute mode
    with an empty selection set, whatever the flag [desc] is;
    otherwise the boolean flag [desc] gives describe mode; otherwise a
    set [exec] gives execute mode with the elements of the set as the
    selection set.  Nothing is printed in these three cases. *)
Theorem mode_resolution argc argv p_mandatory pgm o' :
  argv !! 0%nat = Some pgm →
  parse options_init argc argv p_mandatory = (o', Ret tt) →
  (get_bool_param o' "exec" = Ret true →
     ∃ t, new_test argc argv p_mandatory = Some (t, [], Returned tt)
          ∧ m_execute_tests t = true ∧ m_print_desc t = false
          ∧ m_tests_to_exec t = ∅ ∧ m_options t = o')
  ∧ (get_bool_param o' "exec" = Ret false →
     get_bool_param o' "desc" = Ret true →
     ∃ t, new_test argc argv p_mandatory = Some (t, [], Returned tt)
          ∧ m_execute_tests t = false ∧ m_print_desc t = true
          ∧ m_tests_to_exec t = ∅ ∧ m_options t = o')
  ∧ (∀ names,
       get_bool_param o' "exec" = Ret false →
       get_bool_param o' "desc" = Ret false →
       get_set_param o' "exec" = Ret (Some names) →
       ∃ t, new_test argc argv p_mandatory = Some (t, [], Returned tt)
            ∧ m_execute_tests t = true ∧ m_print_desc t = false
            ∧ m_tests_to_exec t = list_to_set names ∧ m_options t = o').
Proof.
  intros Hargv Hparse. rewrite (new_test_defined _ _ _ _ Hargv).
  split; [|split].
  - intros He. unfold_ctor. cbn. rewrite Hparse. cbn. rewrite He. cbn.
    eexists. split; [reflexivity|]. done.
  - intros He Hd. unfold_ctor. cbn. rewrite Hparse. cbn. rewrite He. cbn.
    rewrite Hd. cbn. eexists. split; [reflexivity|]. done.
  - intros names He Hd Hs. unfold_ctor. cbn. rewrite Hparse. cbn.
    rewrite He. cbn. rewrite Hd. cbn. rewrite Hs. cbn.
    eexists. split; [reflexivity|]. cbn. repeat split.
    apply (right_id_L ∅ (∪)).
Qed.

(** A [std::exception] out of the [try] block of the constructor,
    whichever call of the parser throws it, finds both mode flags
    still false and nothing printed yet. *)
Lemma try_block_failure p_mandatory t0 t1 tr1 what :
  m_execute_tests t0 = false → m_print_desc t0 = false →
  resolve_mode p_mandatory t0 = (t1, tr1, Raise (std_exception what)) →
  tr1 = [] ∧ m_execute_tests t1 = false ∧ m_print_desc t1 = false
  ∧ noexcept (try_catch (resolve_mode p_mandatory) report_exception) t0
    = (t1,
       [Write cout "EXCEPTION '"; Write cout what; Write cout "'";
        Write cout LF],
       Returned tt).
Proof.
  destruct t0 as [pgm e d argc argv sel o]. intros He Hd Hthrow.
  cbn in He, Hd. subst e d.
  unfold noexcept, try_catch. rewrite Hthrow. revert Hthrow.
  unfold resolve_mode, print_mini_howto. unfold_cpp. cbn.
  ask_options; intros [= <- <- <-]; done.
Qed.

(** C5. When [parse] throws a [std::exception] with message [m], the
    constructor prints [EXCEPTION '<m>'] once on standard output and
    nothing else, and leaves both mode flags false, whatever flags the
    parser had seen; every later [run] then does nothing: no test is
    executed and no description is printed. *)
Theorem parse_failure argc argv p_mandatory pgm o' what :
  argv !! 0%nat = Some pgm →
  parse options_init argc argv p_mandatory
  = (o', Throw (std_exception what)) →
  ∃ t tr,
    new_test argc argv p_mandatory = Some (t, tr, Returned tt)
    ∧ written cout tr = exception_line what +:+ LF
    ∧ written cerr tr = ""
    ∧ m_execute_tests t = false ∧ m_print_desc t = false
    ∧ m_options t = o'
    ∧ ∀ tests, run_tests tests t = (t, [], Returned tt).
Proof.
  intros Hargv Hparse. rewrite (new_test_defined _ _ _ _ Hargv).
  unfold_ctor. cbn. rewrite Hparse. cbn.
  eexists _, _. split; [reflexivity|]. cbn.
  split; [unfold exception_line; by rewrite !append_assoc|].
  repeat split.
  intros tests. induction tests as [|[name T] rest IH]; [reflexivity|].
  cbn [run_tests]. rewrite run_skips, IH; [reflexivity|done|].
  by intros [? _].
Qed.

(** C7. The object the constructor leaves is in exactly one of the
    four modes: the two mode flags are never both true and the
    selection set is non-empty only when the runner executes; and a
    call of [run], or any sequence of calls, gives back the object as
    it was: mode flags, selection set, options and the rest. *)
Theorem mode_fixed argc argv p_mandatory t tr o :
  new_test argc argv p_mandatory = Some (t, tr, o) →
  (∃ m, in_mode t m ∧ ∀ m', in_mode t m' → m' = m)
  ∧ ¬ (m_execute_tests t = true ∧ m_print_desc t = true)
  ∧ (m_tests_to_exec t ≠ ∅ → m_execute_tests t = true)
  ∧ (∀ T name, state_of (run T name t) = t)
  ∧ (∀ tests, state_of (run_tests tests t) = t).
Proof.
  unfold new_test. destruct (argv !! 0%nat) as [pgm|]; [|done].
  destruct (constructor_body p_mandatory (initial argc argv pgm))
    as (t1 & tr1 & o1 & E & _ & _ & _ & Hboth & Hsel); [done..|].
  rewrite E. intros [= -> -> ->].
  split; [|split; [done|split; [done|split]]].
  - destruct (m_execute_tests t) eqn:He, (m_print_desc t) eqn:Hd.
    + destruct Hboth. done.
    + destruct (decide (m_tests_to_exec t = ∅)) as [Hem|Hne].
      * exists Execute_All. split; [done|].
        intros [] (? & ? & ?); congruence.
      * exists Execute_Selected. split; [done|].
        intros [] (? & ? & ?); congruence.
    + destruct (decide (m_tests_to_exec t = ∅)) as [Hem|Hne];
        [|by specialize (Hsel Hne)].
      exists Describe. split; [done|].
      intros [] (? & ? & ?); congruence.
    + destruct (decide (m_tests_to_exec t = ∅)) as [Hem|Hne];
        [|by specialize (Hsel Hne)].
      exists Idle. split; [done|].
      intros [] (? & ? & ?); congruence.
  - intros T name. apply run_state.
  - intros tests. apply run_tests_state.
Qed.

(** C9. The constructor reads [argv[0]] before its [try] block and
    without looking at [argc]: on an argument vector of [argc >= 1]
    strings the read is defined and the program name is [argv[0]],
    whatever the parser does afterwards; the read is undefined exactly
    when the vector is empty, whatever [argc] says. *)
Theorem program_name_read argc argv p_mandatory :
  (1 ≤ argc)%Z → argc = Z.of_nat (length argv) →
  (∃ t tr o, new_test argc argv p_mandatory = Some (t, tr, o)
             ∧ argv !! 0%nat = Some (m_pgm_name t))
  ∧ (∀ argc' argv' p_mandatory',
       new_test argc' argv' p_mandatory' = None ↔ argv' = []).
Proof.
  intros Hpos Hlen. split.
  - destruct argv as [|pgm rest]; [cbn in Hlen; lia|].
    destruct (constructor_body p_mandatory (initial argc (pgm :: rest) pgm))
      as (t1 & tr1 & o1 & E & Hname & _); [done..|].
    exists t1, tr1, o1. rewrite (new_test_defined _ _ _ pgm) by done.
    rewrite E, Hname. done.
  - intros argc' argv' p_mandatory'. unfold new_test.
    destruct argv' as [|pgm rest]; cbn; split; done.
Qed.

(** *** Describing *)

Lemma run_tests_describe tests t :
  m_print_desc t = true →
  Forall (λ nt, ∃ d, describes nt.2 d) tests →
  ∃ tr, run_tests tests t = (t, tr, Returned tt)
        ∧ written cout tr = descriptions tests
        ∧ written cerr tr = ""
        ∧ entered static_desc tr = length tests
        ∧ entered default_ctor tr = 0%nat
        ∧ entered call_operator tr = 0%nat.
Proof.
  intros Hd Hall.
  induction Hall as [|[name T] rest [d Hdesc] _ (tr & E & Ho & He & Hn & Hc & Hi)].
  { by exists []. }
  cbn in Hdesc. cbn [run_tests].
  rewrite (run_describes _ _ _ _ Hd Hdesc), E.
  eexists. split; [reflexivity|].
  rewrite !written_app, !entered_app, Ho, He, Hn, Hc, Hi.
  cbn [descriptions]. rewrite Hdesc. unfold description_line.
  split; [cbn; rewrite !append_assoc; reflexivity|].
  repeat split; cbn; lia.
Qed.

(** C4. In describe mode a call [run(name, T)] writes
    [<name>: <T::desc()>], a line end and an empty line on standard
    output and returns; the only code of the class it enters is
    [desc].  So for [n] registered tests the program writes their [n]
    description lines in the order of registration, nothing on the
    diagnostic stream, and neither builds nor calls any test. *)
Theorem describe_mode tests t :
  m_print_desc t = true →
  Forall (λ nt, ∃ d, describes nt.2 d) tests →
  (∀ name T d, describes T d →
     run T name t
     = (t,
        [Write cout name; Write cout ": "; Enter static_desc; Write cout d;
         Write cout LF; Write cout LF],
        Returned tt)
     ∧ written cout (trace_of (run T name t))
       = description_line name d +:+ LF +:+ LF)
  ∧ run_tests tests t
    = (t, trace_of (run_tests tests t), Returned tt)
  ∧ written cout (trace_of (run_tests tests t)) = descriptions tests
  ∧ written cerr (trace_of (run_tests tests t)) = ""
  ∧ entered static_desc (trace_of (run_tests tests t)) = length tests
  ∧ entered default_ctor (trace_of (run_tests tests t)) = 0%nat
  ∧ entered call_operator (trace_of (run_tests tests t)) = 0%nat.
Proof.
  intros Hd Hall. split.
  - intros name T d Hdesc. rewrite (run_describes _ _ _ _ Hd Hdesc).
    split; [done|]. unfold description_line. by rewrite !append_assoc.
  - destruct (run_tests_describe _ _ Hd Hall) as (tr & -> & ?). done.
Qed.

(** *** Banners *)

(** C8 as the code has it.  Take an execution step in which the test
    object is built, [desc] returns, [operator()] returns or throws a
    [std::exception], and the destructor returns.  It writes on the
    diagnostic stream a line feed, the opening banner
    [############ -> <name> - <desc()>] and the closing banner
    [############ <- <name>], each banner ended by a line end, and
    nothing else: the opening banner is complete before [operator()]
    is entered, the outcome line follows on standard output only, and
    the closing banner comes last. *)
Theorem exec_banners T name t d :
  construct T = Ret tt → desc T = Ret d →
  call T (m_options t) ≠ Throw not_std_exception →
  destroy T = Ret tt →
  ∃ before outcome after,
    exec T name t
    = (t, before ++ [Enter call_operator] ++ outcome ++ after, Normal tt)
    ∧ written cerr before = LF +:+ opening_banner name d +:+ LF
    ∧ written cout before = ""
    ∧ entered call_operator before = 0%nat
    ∧ written cerr outcome = ""
    ∧ entered call_operator (outcome ++ after) = 0%nat
    ∧ (written cout outcome = success_line name +:+ LF
       ∨ written cout outcome = fail_line name +:+ LF
       ∨ ∃ what, written cout outcome = error_line name what +:+ LF)
    ∧ written cerr after = closing_banner name +:+ LF
    ∧ written cout after = ""
    ∧ written cerr (trace_of (exec T name t))
      = LF +:+ opening_banner name d +:+ LF +:+ closing_banner name +:+ LF.
Proof.
  intros E1 E2 E3 E4. rewrite exec_paths, E1, E2, E4.
  exists ([Enter default_ctor] ++ banner_start name
          ++ [Enter static_desc; Write cerr d; Write cerr LF]).
  destruct (call T (m_options t)) as [result|[what|]]; [| |done].
  - exists (result_writes name result ++ [Destroy]), (closing_writes name).
    unfold opening_banner, closing_banner, success_line, fail_line.
    cbn. rewrite !append_assoc.
    repeat split; try reflexivity.
    destruct result; [left|right; left]; reflexivity.
  - exists ([Destroy] ++ error_writes name what), (closing_writes name).
    unfold opening_banner, closing_banner, error_line.
    cbn. rewrite !append_assoc.
    repeat split; try reflexivity.
    right; right. exists what. by rewrite !append_assoc.
Qed.

(** C10 as the code has it.  The test object is built inside the
    [try] block, first of all.  When its construction throws a
    [std::exception] with message [m], the step prints
    [ERROR for <name> '<m>'], never enters [operator()], writes no
    opening banner and still writes the closing banner.  When [desc]
    throws it, the object is destroyed on the way to the handler.  If
    the destructor returns, the outcome and the closing banner are the
    same, but the beginning of the opening banner, up to [" - "], is
    already on the diagnostic stream: the closing banner continues
    that line.  If the destructor throws, the program ends there: the
    beginning of the opening banner is all that was written. *)
Theorem exec_setup_throws T name t what :
  (construct T = Throw (std_exception what) →
     ∃ tr, exec T name t = (t, Enter default_ctor :: tr, Normal tt)
           ∧ written cout tr = error_line name what +:+ LF
           ∧ entered call_operator tr = 0%nat
           ∧ (Destroy ∉ tr)
           ∧ written cerr tr = closing_banner name +:+ LF)
  ∧ (construct T = Ret tt → desc T = Throw (std_exception what) →
     destroy T = Ret tt →
     ∃ tr, exec T name t = (t, Enter default_ctor :: tr, Normal tt)
           ∧ written cout tr = error_line name what +:+ LF
           ∧ entered call_operator tr = 0%nat
           ∧ written cerr tr
             = LF +:+ "############ -> " +:+ name +:+ " - "
               +:+ closing_banner name +:+ LF)
  ∧ (∀ e, construct T = Ret tt → desc T = Throw (std_exception what) →
          destroy T = Throw e →
     ∃ tr, exec T name t = (t, Enter default_ctor :: tr, Halt)
           ∧ written cout tr = ""
           ∧ entered call_operator tr = 0%nat
           ∧ written cerr tr = LF +:+ "############ -> " +:+ name +:+ " - ").
Proof.
  rewrite exec_paths. unfold error_line, closing_banner.
  split; [|split].
  - intros E1. rewrite E1.
    eexists. split; [reflexivity|]. cbn.
    split; [by rewrite !append_assoc|]. split; [done|].
    split; [|by rewrite !append_assoc].
    intros Hin. repeat (apply elem_of_cons in Hin as [Hin|Hin]; [done|]).
    by apply elem_of_nil in Hin.
  - intros E1 E2 E4. rewrite E1, E2, E4.
    eexists. split; [reflexivity|]. cbn. by rewrite !append_assoc.
  - intros e E1 E2 E4. rewrite E1, E2, E4.
    eexists. split; [reflexivity|]. cbn. by rewrite !append_assoc.
Qed.

(** *** Containment of exceptions *)

Lemma raised_std_only T o :
  throws_std_only T o → raised T o ≠ Some not_std_exception.
Proof.
  intros (Hc & Hd & Hi). unfold raised.
  destruct (construct T) as [[]|[?|]]; [|done..].
  destruct (desc T) as [?|[?|]]; [|done..].
  destruct (call T o) as [?|[?|]]; done.
Qed.

Lemma exec_returns T name t :
  throws_std_only T (m_options t) → destroy T = Ret tt →
  ∃ tr, exec T name t = (t, tr, Normal tt).
Proof.
  intros (Hc & Hd & Hi) Hdtor.
  exec_cases T name t; try done; by eexists.
Qed.

Lemma run_returns T name t :
  throws_std_only T (m_options t) → destroy T = Ret tt →
  run T name t = (t, trace_of (run T name t), Returned tt).
Proof.
  intros Hstd Hdtor.
  destruct (m_print_desc t) eqn:Hd.
  - destruct Hstd as (_ & Hdesc & _).
    destruct (desc T) as [d|[what|]] eqn:E; [| |done].
    + by rewrite (run_describes _ _ _ _ Hd E).
    + by rewrite (run_describe_throws _ _ _ _ Hd E).
  - destruct (decide (m_execute_tests t = true ∧ selected t name))
      as [[He Hsel]|Hno].
    + rewrite (run_executes _ _ _ Hd He Hsel). unfold noexcept.
      by destruct (exec_returns T name t Hstd Hdtor) as (tr & ->).
    + by rewrite (run_skips _ _ _ Hd Hno).
Qed.

Lemma exec_reports T name t what :
  raised T (m_options t) = Some (std_exception what) →
  (construct T = Ret tt → destroy T = Ret tt) →
  ∃ tr, exec T name t = (t, tr, Normal tt)
        ∧ written cout tr = error_line name what +:+ LF.
Proof.
  unfold raised, error_line. intros Hraised Hdtor. revert Hraised.
  exec_cases T name t; intros [= ->]; try (by specialize (Hdtor eq_refl));
    (eexists; split; [reflexivity|]; cbn; by rewrite !append_assoc).
Qed.

Lemma exec_unwinding_terminates T name t what e :
  construct T = Ret tt →
  raised T (m_options t) = Some (std_exception what) →
  destroy T = Throw e →
  ∃ tr, exec T name t = (t, tr, Halt) ∧ written cout tr = "".
Proof.
  unfold raised. intros E1 Hraised E4. revert Hraised.
  rewrite exec_paths, E1, E4.
  destruct (desc T) as [d|[what'|]]; [|intros [= ->]; by eexists|done].
  destruct (call T (m_options t)) as [result|[what'|]]; [done| |done].
  intros [= ->]. by eexists.
Qed.

(** C6 as the code has it.  No exception leaves [run]: the function
    is [noexcept].  What is derived from [std::exception] and thrown
    by the construction of the test object, by [desc] or by
    [operator()] is caught, in the execution step or in [run], and
    turned into a printed line, after which [run] returns, provided
    the destructor of the test object returns; so a program whose
    tests throw nothing else runs all its calls, one after the other.
    What is not derived from [std::exception] is caught nowhere and,
    [run] being [noexcept], ends the program; so does a destructor
    that throws while a caught exception is on its way to the
    handler. *)
Theorem std_exceptions_contained t :
  (∀ T name, throws_std_only T (m_options t) → destroy T = Ret tt →
     ending_of (run T name t) = Returned tt)
  ∧ (∀ T name what,
       m_print_desc t = false → m_execute_tests t = true →
       selected t name →
       raised T (m_options t) = Some (std_exception what) →
       (construct T = Ret tt → destroy T = Ret tt) →
       written cout (trace_of (run T name t)) = error_line name what +:+ LF)
  ∧ (∀ T name what,
       m_print_desc t = true → desc T = Throw (std_exception what) →
       written cout (trace_of (run T name t))
       = name +:+ ": " +:+ exception_line what +:+ LF)
  ∧ (∀ tests,
       Forall (λ nt, throws_std_only nt.2 (m_options t)
                     ∧ destroy nt.2 = Ret tt) tests →
       run_tests tests t
       = (t, flat_map (λ nt, trace_of (run nt.2 nt.1 t)) tests, Returned tt))
  ∧ (∀ T name,
       m_print_desc t = false → m_execute_tests t = true →
       selected t name →
       raised T (m_options t) = Some not_std_exception →
       ending_of (run T name t) = Terminated)
  ∧ (∀ T name what e,
       m_print_desc t = false → m_execute_tests t = true →
       selected t name →
       construct T = Ret tt →
       raised T (m_options t) = Some (std_exception what) →
       destroy T = Throw e →
       ending_of (run T name t) = Terminated
       ∧ written cout (trace_of (run T name t)) = "").
Proof.
  split; [|split; [|split; [|split; [|split]]]].
  - intros T name Hstd Hdtor. by rewrite (run_returns _ _ _ Hstd Hdtor).
  - intros T name what Hd He Hsel Hraised Hdtor.
    rewrite (run_executes _ _ _ Hd He Hsel). unfold noexcept.
    destruct (exec_reports T name t what Hraised Hdtor) as (tr & -> & Hout).
    done.
  - intros T name what Hd E. rewrite (run_describe_throws _ _ _ _ Hd E).
    unfold exception_line. cbn. by rewrite !append_assoc.
  - intros tests Hall.
    induction Hall as [|[name T] rest [Hstd Hdtor] _ IH]; [reflexivity|].
    cbn [run_tests flat_map]. cbn in Hstd, Hdtor.
    rewrite (run_returns _ _ _ Hstd Hdtor), IH. reflexivity.
  - intros T name Hd He Hsel Hraised.
    rewrite (run_executes _ _ _ Hd He Hsel). unfold noexcept.
    revert Hraised. unfold raised. exec_cases T name t; done.
  - intros T name what e Hd He Hsel E1 Hraised E4.
    rewrite (run_executes _ _ _ Hd He Hsel). unfold noexcept.
    destruct (exec_unwinding_terminates T name t what e E1 Hraised E4)
      as (tr & -> & Hout).
    done.
Qed.

(** ** Further properties of the constructor *)

Lemma run_tests_idle tests t :
  m_execute_tests t = false → m_print_desc t = false →
  run_tests tests t = (t, [], Returned tt).
Proof.
  intros He Hd. induction tests as [|[name T] rest IH]; [reflexivity|].
  cbn [run_tests]. rewrite run_skips, IH; [reflexivity|done|].
  intros [? _]. congruence.
Qed.

(** X1. A command line that parses and has neither the flag [exec],
    nor the flag [desc], nor a set [exec] makes the constructor print
    the how-to, which begins with [Syntax:] and quotes the program
    name, on standard output only; the runner is idle and every later
    [run] does nothing. *)
Theorem no_flag_prints_howto argc argv p_mandatory pgm o' :
  argv !! 0%nat = Some pgm →
  parse options_init argc argv p_mandatory = (o', Ret tt) →
  get_bool_param o' "exec" = Ret false →
  get_bool_param o' "desc" = Ret false →
  get_set_param o' "exec" = Ret None →
  ∃ t,
    new_test argc argv p_mandatory
    = Some (t, trace_of (print_mini_howto t), Returned tt)
    ∧ in_mode t Idle ∧ m_pgm_name t = pgm ∧ m_options t = o'
    ∧ written cerr (trace_of (print_mini_howto t)) = ""
    ∧ (∃ rest, written cout (trace_of (print_mini_howto t))
               = "Syntax:" +:+ LF +:+ TAB +:+ "'" +:+ pgm +:+ rest)
    ∧ ∀ tests, run_tests tests t = (t, [], Returned tt).
Proof.
  intros Hargv Hparse He Hd Hs. rewrite (new_test_defined _ _ _ _ Hargv).
  exists (set_options o' (initial argc argv pgm)).
  split; [|split; [done|split; [done|split; [done|split; [done|split]]]]].
  - unfold_ctor. cbn. rewrite Hparse. cbn. rewrite He. cbn. rewrite Hd. cbn.
    rewrite Hs. reflexivity.
  - eexists. cbn. rewrite !append_assoc. reflexivity.
  - intros tests. by apply run_tests_idle.
Qed.

(** X2. A [std::exception] thrown by the parser, at [parse] or at any
    getter the constructor reaches, is caught by the constructor: it
    prints [EXCEPTION '<what>'] and nothing else, keeps the options
    object as the parser left it, and leaves the runner idle. *)
Theorem parser_exception_reported argc argv p_mandatory pgm o' what :
  argv !! 0%nat = Some pgm →
  parser_throws argc argv p_mandatory (std_exception what) o' →
  ∃ t tr,
    new_test argc argv p_mandatory = Some (t, tr, Returned tt)
    ∧ written cout tr = exception_line what +:+ LF
    ∧ written cerr tr = ""
    ∧ in_mode t Idle ∧ m_options t = o'
    ∧ ∀ tests, run_tests tests t = (t, [], Returned tt).
Proof.
  intros Hargv Hthrow. rewrite (new_test_defined _ _ _ _ Hargv).
  assert (∃ t,
    noexcept (try_catch (resolve_mode p_mandatory) report_exception)
             (initial argc argv pgm)
    = (t, [Write cout "EXCEPTION '"; Write cout what; Write cout "'";
           Write cout LF], Returned tt)
    ∧ in_mode t Idle ∧ m_options t = o') as (t & -> & Hidle & Ho).
  { unfold_ctor. cbn.
    destruct Hthrow as [Hp|(Hp & [He|(He & [Hd|(Hd & Hs)])])];
      rewrite Hp; cbn; try (rewrite He; cbn); try (rewrite Hd; cbn);
      try (rewrite Hs; cbn); (eexists; split; [reflexivity|done]). }
  exists t. eexists. split; [reflexivity|].
  split; [unfold exception_line; cbn; by rewrite !append_assoc|].
  split; [done|]. split; [done|]. split; [done|].
  intros tests. destruct Hidle as (He & Hd & _). by apply run_tests_idle.
Qed.

(** X3. Something that is not a [std::exception], thrown by the parser
    at [parse] or at any getter the constructor reaches, passes the
    handler of the constructor; the constructor being [noexcept], the
    program ends there, with nothing printed. *)
Theorem parser_throw_terminates argc argv p_mandatory pgm o' :
  argv !! 0%nat = Some pgm →
  parser_throws argc argv p_mandatory not_std_exception o' →
  ∃ t, new_test argc argv p_mandatory = Some (t, [], Terminated)
       ∧ m_options t = o'.
Proof.
  intros Hargv Hthrow. rewrite (new_test_defined _ _ _ _ Hargv).
  unfold_ctor. cbn.
  destruct Hthrow as [Hp|(Hp & [He|(He & [Hd|(Hd & Hs)])])];
    rewrite Hp; cbn; try (rewrite He; cbn); try (rewrite Hd; cbn);
    try (rewrite Hs; cbn); (eexists; split; [reflexivity|done]).
Qed.

(** X4. Whatever the parser does, the constructor writes nothing on
    the diagnostic stream, keeps [argc] and [argv] as given, and is
    silent whenever it selects a mode: with a mode flag set its trace
    is empty and it has returned. *)
Theorem constructor_is_quiet argc argv p_mandatory t tr o :
  new_test argc argv p_mandatory = Some (t, tr, o) →
  written cerr tr = ""
  ∧ m_argc t = argc ∧ m_argv t = argv
  ∧ (m_execute_tests t = true ∨ m_print_desc t = true →
     tr = [] ∧ o = Returned tt).
Proof.
  unfold new_test. destruct (argv !! 0%nat) as [pgm|]; [|done].
  unfold initial. unfold_ctor. cbn.
  ask_options; intros [= <- <- <-]; cbn;
    (split; [reflexivity|]; split; [reflexivity|]; split; [reflexivity|]);
    (intros [?|?]; done).
Qed.

(** X5. After [--exec { n1 n2 ... }] the runner executes a test
    exactly when its name is one of the listed names, however often
    and in whatever order they are listed; and a set without elements
    selects every test, not none. *)
Theorem set_selects_listed_names argc argv p_mandatory pgm o' names :
  argv !! 0%nat = Some pgm →
  parse options_init argc argv p_mandatory = (o', Ret tt) →
  get_bool_param o' "exec" = Ret false →
  get_bool_param o' "desc" = Ret false →
  get_set_param o' "exec" = Ret (Some names) →
  ∃ t,
    new_test argc argv p_mandatory = Some (t, [], Returned tt)
    ∧ (names = [] → in_mode t Execute_All)
    ∧ (names ≠ [] → in_mode t Execute_Selected)
    ∧ ∀ T name,
        (names = [] ∨ name ∈ names → run T name t = noexcept (exec T name) t)
        ∧ (names ≠ [] → name ∉ names → run T name t = (t, [], Returned tt)).
Proof.
  intros Hargv Hparse He Hd Hs. rewrite (new_test_defined _ _ _ _ Hargv).
  unfold_ctor. cbn. rewrite Hparse. cbn. rewrite He. cbn. rewrite Hd. cbn.
  rewrite Hs. cbn.
  eexists. split; [reflexivity|].
  rewrite (right_id_L ∅ (∪)).
  split; [|split].
  - intros ->. done.
  - intros Hne. cbn. split; [done|]. split; [done|].
    destruct names as [|n names]; [done|]. cbn. set_solver.
  - intros T name. split.
    + intros Hin. apply run_executes; [done..|]. unfold selected. cbn.
      destruct Hin as [->|Hin]; [by left|right]. by apply elem_of_list_to_set.
    + intros Hne Hout. apply run_skips; [done|].
      unfold selected. cbn. intros [_ [Hem|Hin]].
      * destruct names as [|n names]; [done|]. cbn in Hem. set_solver.
      * apply elem_of_list_to_set in Hin. done.
Qed.

(** ** Further properties of the execution step and of [run] *)

(** X6. The execution step gives back the object as it was and lets
    no [std::exception] out: it returns, or something that is not a
    [std::exception] is in flight, or the program has ended in
    [std::terminate].  It returns whenever the test class throws
    nothing but [std::exception]s and its destructor returns.  When
    it returns, the closing banner is the last thing written; when it
    does not, the trace ends inside the test class, in an entry point
    or in the destructor: the closing banner is not written. *)
Theorem exec_ends T name t :
  state_of (exec T name t) = t
  ∧ (∀ what, ending_of (exec T name t) ≠ Raise (std_exception what))
  ∧ (throws_std_only T (m_options t) → destroy T = Ret tt →
     ending_of (exec T name t) = Normal tt)
  ∧ (ending_of (exec T name t) = Normal tt →
     ∃ tr, trace_of (exec T name t) = tr ++ closing_writes name)
  ∧ (ending_of (exec T name t) ≠ Normal tt →
     last (trace_of (exec T name t)) = Some Destroy
     ∨ ∃ e, last (trace_of (exec T name t)) = Some (Enter e)).
Proof.
  split; [|split; [|split; [|split]]].
  - by destruct (exec_shape T name t) as (tr & r & -> & _).
  - intros what.
    by destruct (exec_shape T name t) as (tr & r & -> & [->|[->| ->]]).
  - intros Hstd Hdtor.
    by destruct (exec_returns T name t Hstd Hdtor) as (tr & ->).
  - exec_cases T name t; unfold ending_of, trace_of; cbn [fst snd];
      try done; intros _; rewrite !app_assoc; by eexists.
  - exec_cases T name t; unfold ending_of, trace_of; cbn; try done;
      intros _; first [by left | right; by eexists].
Qed.

(** X7. The execution step enters the test class in one order: the
    default constructor, then [desc], then [operator()], each at most
    once; [desc] is called only when the object is built, and
    [operator()] only when [desc] has returned. *)
Theorem exec_entry_order T name t :
  entries (trace_of (exec T name t))
  = match construct T, desc T with
    | Throw _, _ => [default_ctor]
    | Ret _, Throw _ => [default_ctor; static_desc]
    | Ret _, Ret _ => [default_ctor; static_desc; call_operator]
    end.
Proof. exec_cases T name t; reflexivity. Qed.

Lemma run_reports T name t :
  m_print_desc t = false → m_execute_tests t = true → selected t name →
  raised T (m_options t) ≠ Some not_std_exception → destroy T = Ret tt →
  ∃ tr, run T name t = (t, tr, Returned tt)
        ∧ written cout tr = outcome_text T (m_options t) name
        ∧ entered default_ctor tr = 1%nat
        ∧ ∃ line, outcome_text T (m_options t) name = line +:+ LF
                  ∧ (line = success_line name ∨ line = fail_line name
                     ∨ ∃ what, line = error_line name what).
Proof.
  intros Hd He Hsel. rewrite (run_executes _ _ _ Hd He Hsel).
  unfold noexcept, outcome_text, raised.
  exec_cases T name t; intros Hraised Hdtor; try done;
    (eexists; split; [reflexivity|]);
    unfold success_line, fail_line, error_line; cbn.
  - destruct result; (split; [by rewrite !append_assoc|]);
      (split; [done|]); eexists; (split; [reflexivity|]); auto.
  - split; [by rewrite !append_assoc|]. split; [done|].
    eexists. split; [reflexivity|]. right; right. by eexists.
  - split; [by rewrite !append_assoc|]. split; [done|].
    eexists. split; [reflexivity|]. right; right. by eexists.
  - split; [by rewrite !append_assoc|]. split; [done|].
    eexists. split; [reflexivity|]. right; right. by eexists.
Qed.

(** X8. When the runner executes, a program prints on standard output
    one outcome line for each registered test that passes the filter,
    in the order of registration, builds each of them once, and
    returns, as long as none of them throws something that is not a
    [std::exception] and the destructor of each returns; the tests
    that do not pass the filter need not behave. *)
Theorem executed_tests_report tests t :
  m_print_desc t = false → m_execute_tests t = true →
  Forall (λ nt, raised nt.2 (m_options t) ≠ Some not_std_exception
                ∧ destroy nt.2 = Ret tt)
         (selection t tests) →
  ∃ tr, run_tests tests t = (t, tr, Returned tt)
        ∧ written cout tr = outcomes (selection t tests) (m_options t)
        ∧ entered default_ctor tr = length (selection t tests)
        ∧ Forall (λ nt, ∃ line,
                    outcome_text nt.2 (m_options t) nt.1 = line +:+ LF
                    ∧ (line = success_line nt.1 ∨ line = fail_line nt.1
                       ∨ ∃ what, line = error_line nt.1 what))
                 (selection t tests).
Proof.
  intros Hd He. unfold selection.
  induction tests as [|[name T] rest IH]; intros Hall.
  { by exists []. }
  destruct (decide (selected t name)) as [Hsel|Hno].
  - rewrite filter_cons_True in Hall |- * by done.
    apply Forall_cons in Hall as [[Hraised Hdtor] Hall].
    destruct (IH Hall) as (tr & E & Hout & Hn & Hlines).
    destruct (run_reports T name t Hd He Hsel Hraised Hdtor)
      as (tr1 & E1 & Hout1 & Hn1 & Hline).
    cbn [run_tests]. rewrite E1, E. eexists. split; [reflexivity|].
    rewrite written_app, entered_app, Hout, Hout1, Hn, Hn1.
    split; [done|]. split; [done|]. by apply Forall_cons.
  - rewrite filter_cons_False in Hall |- * by done.
    destruct (IH Hall) as (tr & E & Hout & Hn & Hlines).
    cbn [run_tests]. rewrite run_skips, E; [|done|by intros [_ ?]].
    by exists tr.
Qed.

(** X9. [run] reads the two mode flags, the selection set and the
    options object and nothing else: the program name, [argc] and
    [argv] kept in the object have no influence on what a call does. *)
Theorem run_ignores_command_line T name t1 t2 :
  m_execute_tests t1 = m_execute_tests t2 →
  m_print_desc t1 = m_print_desc t2 →
  m_tests_to_exec t1 = m_tests_to_exec t2 →
  m_options t1 = m_options t2 →
  trace_of (run T name t1) = trace_of (run T name t2)
  ∧ ending_of (run T name t1) = ending_of (run T name t2).
Proof.
  destruct t1 as [pgm1 e1 d1 argc1 argv1 sel1 o1],
           t2 as [pgm2 e2 d2 argc2 argv2 sel2 o2].
  cbn. intros -> -> -> ->.
  destruct d2.
  - unfold run, noexcept, try_catch, run_try. unfold_cpp. cbn.
    by destruct (desc T) as [d|[what|]].
  - destruct (decide (e2 = true ∧ (sel2 = ∅ ∨ name ∈ sel2)))
      as [[-> Hsel]|Hno].
    + rewrite !run_executes; [|done|done|exact Hsel|done|done|exact Hsel].
      unfold noexcept. rewrite !exec_paths. cbn [m_options].
      destruct (construct T) as [[]|[?|]]; [|done..].
      destruct (desc T) as [?|[?|]], (destroy T) as [[]|[?|]]; try done;
        by destruct (call T o2) as [?|[?|]].
    + rewrite !run_skips; [done|done|exact Hno|done|exact Hno].
Qed.

Lemma length_append (s1 s2 : string) :
  String.length (s1 +:+ s2) = (String.length s1 + String.length s2)%nat.
Proof.
  induction s1 as [|a s1 IH]; [reflexivity|].
  change (S (String.length (s1 +:+ s2))
          = S (String.length s1 + String.length s2)).
  by rewrite IH.
Qed.

(** X11. The how-to announces the lines [SUCCESS for <name>] and
    [FAIL for <name>], but the execution step never prints a line of
    that form for a test that returns: it prints the name first. *)
Theorem announced_lines_never_printed T name t d result :
  construct T = Ret tt → desc T = Ret d →
  call T (m_options t) = Ret result →
  (∃ pre mid post,
     written cout (trace_of (print_mini_howto t))
     = pre +:+ DQUOTE +:+ "SUCCESS for <name>" +:+ DQUOTE +:+ mid
       +:+ DQUOTE +:+ "FAIL for <name>" +:+ DQUOTE +:+ post)
  ∧ written cout (trace_of (exec T name t)) ≠ "SUCCESS for " +:+ name +:+ LF
  ∧ written cout (trace_of (exec T name t)) ≠ "FAIL for " +:+ name +:+ LF.
Proof.
  intros E1 E2 E3. split.
  - exists ("Syntax:" +:+ LF
            +:+ TAB +:+ "'" +:+ m_pgm_name t
            +:+ " --desc' will display a description of the test" +:+ LF
            +:+ TAB +:+ "'" +:+ m_pgm_name t
            +:+ " --exec' will execute the all the tests" +:+ LF
            +:+ TAB +:+ "'" +:+ m_pgm_name t
            +:+ " --exec { <test-name-1> <test-name-2> ...}' will execute "
            +:+ "tests defined between '{' and '}'" +:+ LF
            +:+ TAB +:+ "'" +:+ m_pgm_name t
            +:+ "' displays this message" +:+ LF +:+ LF
            +:+ "For the programmers: " +:+ LF
            +:+ TAB
            +:+ "1 - Programmers should use 'std::cerr' to print messages"
            +:+ LF
            +:+ TAB +:+ "2 - If do not want your 'std::cerr' messages to be "
            +:+ "displayed, use" +:+ LF
            +:+ TAB +:+ "'" +:+ m_pgm_name t
            +:+ " --exec 2> /dev/null' to execute the tests" +:+ LF +:+ LF
            +:+ "Output:" +:+ LF
            +:+ TAB +:+ "If the test passes, the message "),
           (" will be printed" +:+ LF
            +:+ TAB +:+ "If the test does not pass, the message "),
           (" will be printed" +:+ LF
            +:+ TAB +:+ "If an error occurr while executing the test , the "
            +:+ "message " +:+ DQUOTE +:+ "ERROR for <name> <desc>" +:+ DQUOTE
            +:+ " will be printed" +:+ LF
            +:+ TAB +:+ "If an exception occurrs, the message " +:+ DQUOTE
            +:+ "EXCEPTION <description>" +:+ DQUOTE +:+ " will be printed"
            +:+ LF).
    cbn. rewrite !append_assoc. reflexivity.
  - rewrite exec_paths, E1, E2, E3. unfold ending_of, trace_of.
    destruct (destroy T) as [[]|[what|]]; cbn;
      rewrite ?written_app; cbn;
      (split; intros Heq; apply (f_equal String.length) in Heq;
       rewrite !length_append in Heq; destruct result; cbn in Heq; lia).
Qed.

(** X12. In describe mode [run] enters nothing of the test class but
    [desc], whatever the other flag and the selection set are and
    whatever [desc] does, and writes nothing on the diagnostic stream;
    the call ends the program exactly when [desc] throws something
    that is not a [std::exception]. *)
Theorem describing_enters_desc_only T name t :
  m_print_desc t = true →
  entries (trace_of (run T name t)) = [static_desc]
  ∧ written cerr (trace_of (run T name t)) = ""
  ∧ (ending_of (run T name t) = Terminated
     ↔ desc T = Throw not_std_exception)
  ∧ (ending_of (run T name t) = Returned tt
     ↔ desc T ≠ Throw not_std_exception).
Proof.
  intros Hd. unfold run, noexcept, try_catch, run_try. unfold_cpp.
  rewrite Hd. cbn.
  destruct (desc T) as [d|[what|]]; cbn; repeat split; done.
Qed.

End Facts.

(** ** The runner on concrete command lines *)

Section Concrete.
Import Sample.

Example exec_all_built :
  new_test 2 ["prog"; "--exec"] [] = Some (exec_all, [], Returned tt).
Proof. vm_compute. reflexivity. Qed.

Example exec_a_c_built :
  new_test 6 ["prog"; "--exec"; "{"; "A"; "C"; "}"] []
  = Some (exec_a_c, [], Returned tt).
Proof. vm_compute. reflexivity. Qed.

Example describing_built :
  new_test 2 ["prog"; "--desc"] [] = Some (describing, [], Returned tt).
Proof. vm_compute. reflexivity. Qed.

Example idle_built :
  ∃ howto, new_test 1 ["prog"] [] = Some (idle, howto, Returned tt)
           ∧ written cerr howto = "".
Proof. eexists. split; vm_compute; reflexivity. Qed.

(** [prog --exec { A C }] with [A], [B], [C] registered. *)
Example select_a_c :
  written cout
    (trace_of (run_tests [("A", failing); ("B", throwing); ("C", test_ok)]
                         exec_a_c))
  = "A FAIL" +:+ LF +:+ "C SUCCESS" +:+ LF.
Proof. vm_compute. reflexivity. Qed.
End Concrete.

(** ** The properties at concrete inputs *)

Import Sample.

Lemma run_selection_witness :
  m_print_desc Sample.exec_a_c = false
  ∧ run Sample.failing "B" Sample.exec_a_c
    = (Sample.exec_a_c, [], Returned tt)
  ∧ Enter default_ctor ∈ trace_of (run Sample.failing "A" Sample.exec_a_c)
  ∧ run_tests [("B", Sample.failing); ("D", Sample.throwing)] Sample.exec_a_c
    = (Sample.exec_a_c, [], Returned tt).
Proof.
  destruct (run_selection Sample.failing "B" Sample.exec_a_c eq_refl)
    as (_ & Hskip & _ & Hnone).
  destruct (run_selection Sample.failing "A" Sample.exec_a_c eq_refl)
    as (Hrun & _).
  split; [reflexivity|]. split; [|split].
  - apply Hskip. intros [_ Hsel]. revert Hsel. compute_done.
  - apply Hrun. split; [reflexivity|compute_done].
  - apply Hnone; compute_done.
Defined.

Lemma exec_outcome_line_witness :
  construct Sample.failing = Ret tt
  ∧ desc Sample.failing = Ret "returns false"
  ∧ destroy Sample.failing = Ret tt
  ∧ written cout (trace_of (exec Sample.failing "t" Sample.exec_all))
    = fail_line "t" +:+ LF
  ∧ written cout (trace_of (exec Sample.throwing "t" Sample.exec_all))
    = error_line "t" "boom" +:+ LF
  ∧ written cout (trace_of (exec test_ok "t" Sample.exec_all))
    = success_line "t" +:+ LF
  ∧ written cout (trace_of (exec Sample.throwing_dtor "t" Sample.exec_all))
    = success_line "t" +:+ LF +:+ error_line "t" "late" +:+ LF.
Proof.
  split; [reflexivity|]. split; [reflexivity|]. split; [reflexivity|].
  split; [|split; [|split]].
  - apply (exec_outcome_line Sample.failing "t" Sample.exec_all
             "returns false" eq_refl eq_refl); reflexivity.
  - apply (exec_outcome_line Sample.throwing "t" Sample.exec_all
             "throws a runtime_error" eq_refl eq_refl); reflexivity.
  - apply (exec_outcome_line test_ok "t" Sample.exec_all
             "an ok test" eq_refl eq_refl); reflexivity.
  - destruct (exec_outcome_line Sample.throwing_dtor "t" Sample.exec_all
                "throws when destroyed" eq_refl eq_refl)
      as (_ & _ & Hlate & _).
    apply (Hlate true "late"); reflexivity.
Defined.

(** [prog --exec --desc]: the flag [exec] wins. *)
Lemma mode_resolution_witness :
  ["prog"; "--exec"; "--desc"] !! 0%nat = Some "prog"
  ∧ parse options_init 3 ["prog"; "--exec"; "--desc"] []
    = (Sample.mk_parsed ["desc"; "exec"] [] [], Ret tt)
  ∧ get_bool_param (Sample.mk_parsed ["desc"; "exec"] [] []) "desc" = Ret true
  ∧ ∃ t, new_test 3 ["prog"; "--exec"; "--desc"] []
         = Some (t, [], Returned tt)
         ∧ m_execute_tests t = true ∧ m_print_desc t = false
         ∧ m_tests_to_exec t = ∅
         ∧ m_options t = Sample.mk_parsed ["desc"; "exec"] [] [].
Proof.
  split; [reflexivity|]. split; [vm_compute; reflexivity|].
  split; [vm_compute; reflexivity|].
  apply (mode_resolution (H:=sample_options)
           3 ["prog"; "--exec"; "--desc"] [] "prog"
           (Sample.mk_parsed ["desc"; "exec"] [] [])).
  - reflexivity.
  - vm_compute. reflexivity.
  - vm_compute. reflexivity.
Defined.

(** [prog --exec] when the option [ini] is mandatory. *)
Lemma parse_failure_witness :
  ["prog"; "--exec"] !! 0%nat = Some "prog"
  ∧ parse options_init 2 ["prog"; "--exec"] ["ini"]
    = (Sample.mk_parsed ["exec"] [] [],
       Throw (std_exception "parameter 'ini' is missing"))
  ∧ get_bool_param (Sample.mk_parsed ["exec"] [] []) "exec" = Ret true
  ∧ ∃ t tr,
      new_test 2 ["prog"; "--exec"] ["ini"] = Some (t, tr, Returned tt)
      ∧ written cout tr
        = exception_line "parameter 'ini' is missing" +:+ LF
      ∧ written cerr tr = ""
      ∧ m_execute_tests t = false ∧ m_print_desc t = false
      ∧ m_options t = Sample.mk_parsed ["exec"] [] []
      ∧ ∀ tests, run_tests tests t = (t, [], Returned tt).
Proof.
  split; [reflexivity|]. split; [vm_compute; reflexivity|].
  split; [vm_compute; reflexivity|].
  apply (parse_failure (H:=sample_options) 2 ["prog"; "--exec"] ["ini"] "prog").
  - reflexivity.
  - vm_compute. reflexivity.
Defined.

Lemma mode_fixed_witness :
  new_test 6 ["prog"; "--exec"; "{"; "A"; "C"; "}"] []
  = Some (Sample.exec_a_c, [], Returned tt)
  ∧ (∃ m, in_mode Sample.exec_a_c m
          ∧ ∀ m', in_mode Sample.exec_a_c m' → m' = m)
  ∧ ¬ (m_execute_tests Sample.exec_a_c = true
       ∧ m_print_desc Sample.exec_a_c = true)
  ∧ (m_tests_to_exec Sample.exec_a_c ≠ ∅
     → m_execute_tests Sample.exec_a_c = true)
  ∧ (∀ T name, state_of (run T name Sample.exec_a_c) = Sample.exec_a_c)
  ∧ (∀ tests, state_of (run_tests tests Sample.exec_a_c) = Sample.exec_a_c).
Proof.
  assert (new_test 6 ["prog"; "--exec"; "{"; "A"; "C"; "}"] []
          = Some (Sample.exec_a_c, [], Returned tt)) as E.
  { vm_compute. reflexivity. }
  split; [exact E|]. exact (mode_fixed _ _ _ _ _ _ E).
Defined.

Lemma program_name_read_witness :
  (1 ≤ 2)%Z
  ∧ 2%Z = Z.of_nat (length ["prog"; "--exec"])
  ∧ ∃ t tr o, new_test 2 ["prog"; "--exec"] [] = Some (t, tr, o)
              ∧ ["prog"; "--exec"] !! 0%nat = Some (m_pgm_name t).
Proof.
  split; [lia|]. split; [reflexivity|].
  apply (program_name_read (H:=sample_options) 2 ["prog"; "--exec"] []);
    [lia|reflexivity].
Defined.

(** [prog --desc] on the three tests of [main.cpp]. *)
Lemma describe_mode_witness :
  m_print_desc Sample.describing = true
  ∧ Forall (λ nt, ∃ d, describes nt.2 d) registered
  ∧ written cout (trace_of (run_tests registered Sample.describing))
    = "test_ok: an ok test" +:+ LF +:+ LF
      +:+ "test_fail: a fail test" +:+ LF +:+ LF
      +:+ "test_error: an eror test" +:+ LF +:+ LF
  ∧ entered call_operator (trace_of (run_tests registered Sample.describing))
    = 0%nat.
Proof.
  assert (Forall (λ nt, ∃ d, describes nt.2 d) registered) as Hall.
  { repeat constructor; eexists; reflexivity. }
  split; [reflexivity|]. split; [exact Hall|].
  destruct (describe_mode registered Sample.describing eq_refl Hall)
    as (_ & _ & Hout & _ & _ & _ & Hcall).
  split; [rewrite Hout; reflexivity|exact Hcall].
Defined.

Lemma exec_banners_witness :
  construct Sample.throwing = Ret tt
  ∧ desc Sample.throwing = Ret "throws a runtime_error"
  ∧ call Sample.throwing (m_options Sample.exec_all)
    ≠ Throw not_std_exception
  ∧ destroy Sample.throwing = Ret tt
  ∧ written cerr (trace_of (exec Sample.throwing "t" Sample.exec_all))
    = LF +:+ opening_banner "t" "throws a runtime_error" +:+ LF
      +:+ closing_banner "t" +:+ LF.
Proof.
  assert (call Sample.throwing (m_options Sample.exec_all)
          ≠ Throw not_std_exception) as Hcall by discriminate.
  split; [reflexivity|]. split; [reflexivity|]. split; [exact Hcall|].
  split; [reflexivity|].
  destruct (exec_banners Sample.throwing "t" Sample.exec_all
              "throws a runtime_error" eq_refl eq_refl Hcall eq_refl)
    as (before & outcome & after & _ & _ & _ & _ & _ & _ & _ & _ & _ & Herr).
  exact Herr.
Defined.

Lemma exec_setup_throws_witness :
  construct Sample.broken_ctor = Throw (std_exception "no fixture")
  ∧ (∃ tr, exec Sample.broken_ctor "t" Sample.exec_all
           = (Sample.exec_all, Enter default_ctor :: tr, Normal tt)
           ∧ written cout tr = error_line "t" "no fixture" +:+ LF
           ∧ entered call_operator tr = 0%nat
           ∧ (Destroy ∉ tr)
           ∧ written cerr tr = closing_banner "t" +:+ LF)
  ∧ desc Sample.broken_desc = Throw (std_exception "no description")
  ∧ destroy Sample.broken_desc = Ret tt
  ∧ (∃ tr, exec Sample.broken_desc "t" Sample.exec_all
           = (Sample.exec_all, Enter default_ctor :: tr, Normal tt)
           ∧ written cout tr = error_line "t" "no description" +:+ LF
           ∧ entered call_operator tr = 0%nat
           ∧ written cerr tr
             = LF +:+ "############ -> " +:+ "t" +:+ " - "
               +:+ closing_banner "t" +:+ LF)
  ∧ destroy Sample.broken_desc_dtor = Throw (std_exception "again")
  ∧ (∃ tr, exec Sample.broken_desc_dtor "t" Sample.exec_all
           = (Sample.exec_all, Enter default_ctor :: tr, Halt)
           ∧ written cout tr = ""
           ∧ entered call_operator tr = 0%nat
           ∧ written cerr tr = LF +:+ "############ -> " +:+ "t" +:+ " - ").
Proof.
  split; [reflexivity|]. split.
  { apply (exec_setup_throws Sample.broken_ctor "t" Sample.exec_all
             "no fixture"). reflexivity. }
  split; [reflexivity|]. split; [reflexivity|]. split.
  { apply (exec_setup_throws Sample.broken_desc "t" Sample.exec_all
             "no description"); reflexivity. }
  split; [reflexivity|].
  apply (exec_setup_throws Sample.broken_desc_dtor "t" Sample.exec_all
           "no description") with (e := std_exception "again"); reflexivity.
Defined.

Lemma std_exceptions_contained_witness :
  Forall (λ nt, throws_std_only nt.2 (m_options Sample.exec_all)
                ∧ destroy nt.2 = Ret tt)
         [("a", Sample.throwing); ("b", Sample.failing)]
  ∧ run_tests [("a", Sample.throwing); ("b", Sample.failing)] Sample.exec_all
    = (Sample.exec_all,
       flat_map (λ nt, trace_of (run nt.2 nt.1 Sample.exec_all))
                [("a", Sample.throwing); ("b", Sample.failing)],
       Returned tt)
  ∧ ending_of (run Sample.throwing_twice "u" Sample.exec_all) = Terminated
  ∧ written cout (trace_of (run Sample.throwing_twice "u" Sample.exec_all))
    = "".
Proof.
  assert (Forall (λ nt, throws_std_only nt.2 (m_options Sample.exec_all)
                        ∧ destroy nt.2 = Ret tt)
                 [("a", Sample.throwing); ("b", Sample.failing)]) as Hall.
  { repeat constructor; discriminate. }
  split; [exact Hall|].
  destruct (std_exceptions_contained Sample.exec_all)
    as (_ & _ & _ & Hruns & _ & Hunwind).
  split; [exact (Hruns _ Hall)|].
  apply (Hunwind Sample.throwing_twice "u" "boom" (std_exception "again"));
    try reflexivity.
  by left.
Defined.

(** ** Where the code departs from the specification *)

(** Against C6: under [prog --exec], a test whose [operator()] executes
    [throw 42] ends the program inside [run]; no line is printed for
    it, and the test registered after it is never built. *)
Lemma non_std_throw_stops_the_tests :
  ending_of (run Sample.throwing_int "i" Sample.exec_all) ≠ Returned tt
  ∧ ending_of (run_tests [("i", Sample.throwing_int); ("b", Sample.failing)]
                         Sample.exec_all)
    = Terminated
  ∧ written cout
      (trace_of (run_tests [("i", Sample.throwing_int); ("b", Sample.failing)]
                           Sample.exec_all))
    = ""
  ∧ entered default_ctor
      (trace_of (run_tests [("i", Sample.throwing_int); ("b", Sample.failing)]
                           Sample.exec_all))
    = 1%nat.
Proof.
  split; [vm_compute; discriminate|].
  repeat split; vm_compute; reflexivity.
Qed.

(** Against C2: a test whose [operator()] returns [true] and whose
    destructor throws a [std::runtime_error] gets two lines, the
    second an [ERROR]; a test whose [operator()] executes [throw 42]
    gets none. *)
Lemma outcome_lines_two_or_none :
  written cout (trace_of (exec Sample.throwing_dtor "d" Sample.exec_all))
  = "d SUCCESS" +:+ LF +:+ "ERROR for d 'late'" +:+ LF
  ∧ written cout (trace_of (exec Sample.throwing_dtor "d" Sample.exec_all))
    ≠ success_line "d" +:+ LF
  ∧ written cout (trace_of (exec Sample.throwing_int "i" Sample.exec_all))
    = "".
Proof.
  split; [vm_compute; reflexivity|].
  split; [vm_compute; discriminate|vm_compute; reflexivity].
Qed.

(** Against C8: a step whose test object cannot be built writes no
    opening banner; a step whose [operator()] executes [throw 42]
    writes no closing banner; and the opening banner of an ordinary
    step comes after a line feed. *)
Lemma banners_not_always_a_pair :
  written cerr (trace_of (exec Sample.broken_ctor "t" Sample.exec_all))
  = closing_banner "t" +:+ LF
  ∧ written cerr (trace_of (exec Sample.throwing_int "i" Sample.exec_all))
    = LF +:+ opening_banner "i" "throws an int" +:+ LF
  ∧ written cerr (trace_of (exec test_ok "t" Sample.exec_all))
    ≠ opening_banner "t" "an ok test" +:+ LF +:+ closing_banner "t" +:+ LF.
Proof.
  split; [vm_compute; reflexivity|].
  split; [vm_compute; reflexivity|vm_compute; discriminate].
Qed.

(** Against C10: when [desc] throws, the diagnostic stream does not
    hold the closing banner alone; the opening banner was begun. *)
Lemma desc_throw_leaves_banner_begun :
  written cerr (trace_of (exec Sample.broken_desc "t" Sample.exec_all))
  ≠ closing_banner "t" +:+ LF
  ∧ written cerr (trace_of (exec Sample.broken_desc "t" Sample.exec_all))
    = LF +:+ "############ -> t - ############ <- t" +:+ LF
  ∧ written cerr (trace_of (exec Sample.broken_desc "t" Sample.exec_all))
    = LF +:+ opening_banner "t" (closing_banner "t") +:+ LF.
Proof.
  split; [vm_compute; discriminate|split; vm_compute; reflexivity].
Qed.

(** ** The further properties at concrete inputs *)

(** [prog] alone. *)
Lemma no_flag_prints_howto_witness :
  ["prog"] !! 0%nat = Some "prog"
  ∧ parse options_init 1 ["prog"] [] = (mk_parsed [] [] [], Ret tt)
  ∧ ∃ t, new_test 1 ["prog"] []
         = Some (t, trace_of (print_mini_howto t), Returned tt)
         ∧ in_mode t Idle
         ∧ ∀ tests, run_tests tests t = (t, [], Returned tt).
Proof.
  split; [reflexivity|]. split; [vm_compute; reflexivity|].
  destruct (no_flag_prints_howto (H:=sample_options) 1 ["prog"] [] "prog"
              (mk_parsed [] [] []))
    as (t & E & Hidle & _ & _ & _ & _ & Hruns);
    [reflexivity|vm_compute; reflexivity|reflexivity..|].
  exists t. split; [exact E|]. split; [exact Hidle|exact Hruns].
Defined.

(** A parser whose [get_bool_param("desc")] throws. *)
Lemma parser_exception_reported_witness :
  parser_throws (H:=scripted (Ret tt) (Ret false)
                             (Throw (std_exception "no flag desc"))
                             (Ret None))
                1 ["prog"] [] (std_exception "no flag desc") tt
  ∧ ∃ t tr,
      new_test (H:=scripted (Ret tt) (Ret false)
                            (Throw (std_exception "no flag desc"))
                            (Ret None))
               1 ["prog"] []
      = Some (t, tr, Returned tt)
      ∧ written cout tr = exception_line "no flag desc" +:+ LF
      ∧ in_mode t Idle.
Proof.
  assert (parser_throws (H:=scripted (Ret tt) (Ret false)
                                     (Throw (std_exception "no flag desc"))
                                     (Ret None))
                        1 ["prog"] [] (std_exception "no flag desc") tt)
    as Hthrow.
  { right. split; [reflexivity|]. right. split; [reflexivity|].
    left. reflexivity. }
  split; [exact Hthrow|].
  destruct (parser_exception_reported
              (H:=scripted (Ret tt) (Ret false)
                           (Throw (std_exception "no flag desc")) (Ret None))
              1 ["prog"] [] "prog" tt "no flag desc" eq_refl Hthrow)
    as (t & tr & E & Hout & _ & Hidle & _).
  exists t, tr. done.
Defined.

(** A parser whose [parse] throws something that is not a
    [std::exception]. *)
Lemma parser_throw_terminates_witness :
  parser_throws (H:=scripted (Throw not_std_exception) (Ret true)
                             (Ret false) (Ret None))
                2 ["prog"; "--exec"] [] not_std_exception tt
  ∧ ∃ t,
      new_test (H:=scripted (Throw not_std_exception) (Ret true)
                            (Ret false) (Ret None))
               2 ["prog"; "--exec"] []
      = Some (t, [], Terminated).
Proof.
  assert (parser_throws (H:=scripted (Throw not_std_exception) (Ret true)
                                     (Ret false) (Ret None))
                        2 ["prog"; "--exec"] [] not_std_exception tt)
    as Hthrow by (left; reflexivity).
  split; [exact Hthrow|].
  destruct (parser_throw_terminates
              (H:=scripted (Throw not_std_exception) (Ret true)
                           (Ret false) (Ret None))
              2 ["prog"; "--exec"] [] "prog" tt eq_refl Hthrow)
    as (t & E & _).
  by exists t.
Defined.

Lemma constructor_is_quiet_witness :
  new_test 6 ["prog"; "--exec"; "{"; "A"; "C"; "}"] []
  = Some (exec_a_c, [], Returned tt)
  ∧ m_argc exec_a_c = 6%Z
  ∧ m_argv exec_a_c = ["prog"; "--exec"; "{"; "A"; "C"; "}"].
Proof.
  assert (new_test 6 ["prog"; "--exec"; "{"; "A"; "C"; "}"] []
          = Some (exec_a_c, [], Returned tt)) as E.
  { vm_compute. reflexivity. }
  split; [exact E|].
  destruct (constructor_is_quiet _ _ _ _ _ _ E) as (_ & Hargc & Hargv & _).
  split; [exact Hargc|exact Hargv].
Defined.

(** [prog --exec { A C A }]: a name listed twice. *)
Lemma set_selects_listed_names_witness :
  parse options_init 7 ["prog"; "--exec"; "{"; "A"; "C"; "A"; "}"] []
  = (mk_parsed [] [] [("exec", ["A"; "C"; "A"])], Ret tt)
  ∧ ∃ t,
      new_test 7 ["prog"; "--exec"; "{"; "A"; "C"; "A"; "}"] []
      = Some (t, [], Returned tt)
      ∧ run failing "A" t = noexcept (exec failing "A") t
      ∧ run failing "B" t = (t, [], Returned tt).
Proof.
  split; [vm_compute; reflexivity|].
  destruct (set_selects_listed_names (H:=sample_options)
              7 ["prog"; "--exec"; "{"; "A"; "C"; "A"; "}"] [] "prog"
              (mk_parsed [] [] [("exec", ["A"; "C"; "A"])])
              ["A"; "C"; "A"])
    as (t & E & _ & _ & Hrun);
    [reflexivity|vm_compute; reflexivity|reflexivity..|].
  exists t. split; [exact E|]. split.
  - apply Hrun. right. compute_done.
  - apply Hrun; [discriminate|compute_done].
Defined.

(** [prog --exec { A C }]: the test [B], which would end the program,
    is not selected. *)
Lemma executed_tests_report_witness :
  Forall (λ nt, raised nt.2 (m_options exec_a_c) ≠ Some not_std_exception
                ∧ destroy nt.2 = Ret tt)
         (selection exec_a_c
                    [("A", failing); ("B", throwing_int); ("C", test_ok)])
  ∧ ∃ tr,
      run_tests [("A", failing); ("B", throwing_int); ("C", test_ok)] exec_a_c
      = (exec_a_c, tr, Returned tt)
      ∧ written cout tr = "A FAIL" +:+ LF +:+ "C SUCCESS" +:+ LF
      ∧ entered default_ctor tr = 2%nat.
Proof.
  assert (selection exec_a_c
                    [("A", failing); ("B", throwing_int); ("C", test_ok)]
          = [("A", failing); ("C", test_ok)]) as Hsel.
  { vm_compute. reflexivity. }
  assert (Forall (λ nt, raised nt.2 (m_options exec_a_c)
                        ≠ Some not_std_exception
                        ∧ destroy nt.2 = Ret tt)
                 (selection exec_a_c
                    [("A", failing); ("B", throwing_int); ("C", test_ok)]))
    as Hall.
  { rewrite Hsel. repeat constructor; discriminate. }
  split; [exact Hall|].
  destruct (executed_tests_report _ exec_a_c eq_refl eq_refl Hall)
    as (tr & E & Hout & Hn & _).
  exists tr. split; [exact E|]. rewrite Hout, Hn, Hsel.
  split; reflexivity.
Defined.

Lemma run_ignores_command_line_witness :
  trace_of (run throwing "t" exec_all)
  = trace_of (run throwing "t"
                  (mk_test (H:=sample_options) "other" true false 0 [] ∅
                           (mk_parsed ["exec"] [] []))).
Proof.
  apply (run_ignores_command_line throwing "t" exec_all
           (mk_test (H:=sample_options) "other" true false 0 [] ∅
                    (mk_parsed ["exec"] [] [])));
    reflexivity.
Defined.

Lemma announced_lines_never_printed_witness :
  construct failing = Ret tt
  ∧ desc failing = Ret "returns false"
  ∧ call failing (m_options exec_all) = Ret false
  ∧ written cout (trace_of (exec failing "t" exec_all))
    ≠ "FAIL for " +:+ "t" +:+ LF.
Proof.
  split; [reflexivity|]. split; [reflexivity|]. split; [reflexivity|].
  apply (announced_lines_never_printed failing "t" exec_all
           "returns false" false eq_refl eq_refl eq_refl).
Defined.

(** [prog --desc] with a test whose [desc] throws. *)
Lemma describing_enters_desc_only_witness :
  m_print_desc describing = true
  ∧ entries (trace_of (run broken_desc "t" describing)) = [static_desc]
  ∧ written cerr (trace_of (run broken_desc "t" describing)) = "".
Proof.
  split; [reflexivity|].
  destruct (describing_enters_desc_only broken_desc "t" describing eq_refl)
    as (Hentries & Herr & _).
  split; [exact Hentries|exact Herr].
Defined.
